(** * Tourist safety companion: emergency alerts, geofence and tracking

    A shallow embedding of the emergency / location core of the app:

    - [services/location.ts]   (class [LocationService]): great-circle
      distance, speed, the bounded location history of the tracking callback,
      the one-shot location fetch;
    - [services/emergency.ts]  (class [EmergencyService]): panic alert,
      backend dispatch, contact notification, geofence check;
    - [(tabs)/index.tsx]       (component [Safety]): the panic button, its
      countdown interval and the cancel paths.

    Beyond these, the file models starting and stopping the tracking with
    its stored preference ([Tracking]), contact management and incident
    reports ([EmergencyOps]), the dashboard of [(tabs)/index.tsx]
    ([Dashboard]) and the KYC demo service and screen ([KYC]).

    JavaScript numbers are modelled as real numbers ([R]): [Math.sin],
    [Math.cos], [Math.sqrt] and [Math.PI] are the functions and the constant
    of the real-number library, [Math.atan2] is written out below.  Rounding,
    NaN and infinities of IEEE doubles are outside this model.  Where the
    rounding changes what the program returns, in the distance of two nearly
    antipodal points, the same function is modelled a second time on IEEE
    doubles ([Doubles]).  A [Date] is its [getTime()] value, an integer
    number of milliseconds. *)

From Stdlib Require Import Reals Lra Lia ZArith List String Bool.
From Stdlib Require Floats.
From stdpp Require Import gmap strings pretty.
Import ListNotations.

(** ** Shared data *)

Record LocationData := mkLocationData {
  latitude  : R;
  longitude : R;
  accuracy  : option R;
  timestamp : Z;
  address   : option string
}.

(** [Math.atan2 y x] on real arguments (ECMAScript, finite non-NaN case). *)
Definition Math_atan2 (y x : R) : R :=
  if Rlt_dec 0 x then atan (y / x)
  else if Rlt_dec x 0 then
         (if Rle_dec 0 y then atan (y / x) + PI else atan (y / x) - PI)%R
  else if Rlt_dec 0 y then (PI / 2)%R
  else if Rlt_dec y 0 then (- (PI / 2))%R
  else 0%R.

(** ** services/location.ts *)

Module LocationService.

Section Distance.
Local Open Scope R_scope.

(** [calculateDistance(loc1, loc2)], location.ts l.197-210. *)
Definition calculateDistance (loc1 loc2 : LocationData) : R :=
  let R_ := 6371000 in
  let phi1 := (latitude loc1 * PI) / 180 in
  let phi2 := (latitude loc2 * PI) / 180 in
  let dphi := ((latitude loc2 - latitude loc1) * PI) / 180 in
  let dlam := ((longitude loc2 - longitude loc1) * PI) / 180 in
  let a := sin (dphi / 2) * sin (dphi / 2) +
           cos phi1 * cos phi2 *
           sin (dlam / 2) * sin (dlam / 2) in
  let c := 2 * Math_atan2 (sqrt a) (sqrt (1 - a)) in
  R_ * c.

(** [calculateSpeed(loc1, loc2)], location.ts l.212-216. *)
Definition calculateSpeed (loc1 loc2 : LocationData) : R :=
  let distance := calculateDistance loc1 loc2 in
  let timeDiff := IZR (timestamp loc2 - timestamp loc1) / 1000 in
  if Rlt_dec 0 timeDiff then distance / timeDiff else 0.

End Distance.

(** *** The platform behind the service

    What the expo location module answers during one call; [None] stands for
    a rejected promise. *)

Inductive PermissionStatus := granted | denied | undetermined.

Record Coords := mkCoords {
  coords_latitude  : R;
  coords_longitude : R;
  coords_accuracy  : option R       (* [number | null] *)
}.

Record GeocodedAddress := mkAddress {
  city : option string;
  district : option string;
  region : option string;
  country : option string
}.

Record Platform := mkPlatform {
  foregroundPermission : option PermissionStatus;
  backgroundPermission : option PermissionStatus;
  currentPosition      : option Coords;
  reverseGeocode       : option (list GeocodedAddress);
  clock                : Z                              (* [new Date()] *)
}.

Definition permission_granted (p : PermissionStatus) : bool :=
  match p with granted => true | _ => false end.

(** [requestPermissions()], location.ts l.29-48: a refused or failing
    foreground request gives [false]; a refused background request is only
    logged, a failing one is caught and gives [false]. *)
Definition requestPermissions (pf : Platform) : bool :=
  match foregroundPermission pf with
  | None => false
  | Some status =>
      if negb (permission_granted status) then false
      else match backgroundPermission pf with
           | None => false
           | Some _ => true
           end
  end.

(** [x || undefined] on an optional number: [null] and [0] are falsy. *)
Definition number_or_undefined (x : option R) : option R :=
  match x with
  | Some a => if Req_dec_T a 0 then None else Some a
  | None => None
  end.

(** [s || t] on optional strings: [undefined] and the empty string are falsy. *)
Definition string_or (s : option string) (t : string) : string :=
  match s with
  | Some EmptyString | None => t
  | Some v => v
  end.

Definition is_white_space (c : Ascii.ascii) : bool :=
  let n := Ascii.nat_of_ascii c in
  ((9 <=? n)%nat && (n <=? 13)%nat) || (n =? 32)%nat.

Fixpoint trimStart (s : string) : string :=
  match s with
  | String c rest => if is_white_space c then trimStart rest else s
  | EmptyString => EmptyString
  end.

Fixpoint string_rev_onto (s acc : string) : string :=
  match s with
  | EmptyString => acc
  | String c rest => string_rev_onto rest (String c acc)
  end.

(** [String.prototype.trim] on ASCII white space. *)
Definition trim (s : string) : string :=
  string_rev_onto (trimStart (string_rev_onto (trimStart s) EmptyString))
                  EmptyString.

Definition format_address (addr : GeocodedAddress) : string :=
  trim (String.append (string_or (match city addr with
                                  | Some EmptyString | None => district addr
                                  | c => c
                                  end) "")
       (String.append ", "
       (String.append (string_or (region addr) "")
       (String.append ", " (string_or (country addr) ""))))).

(** [getCurrentLocation()], location.ts l.50-86.  Every failure is caught and
    gives [null]; a failing reverse geocoding only leaves [address] unset. *)
Definition getCurrentLocation (pf : Platform) : option LocationData :=
  if negb (requestPermissions pf) then None
  else match currentPosition pf with
       | None => None
       | Some coords =>
           let addr :=
             match reverseGeocode pf with
             | Some (a :: _) => Some (format_address a)
             | Some [] | None => None
             end in
           Some {| latitude  := coords_latitude coords;
                   longitude := coords_longitude coords;
                   accuracy  := number_or_undefined (coords_accuracy coords);
                   timestamp := clock pf;
                   address   := addr |}
       end.

(** *** Tracking state and the fix callback *)

Record Tracker := mkTracker {
  watchId         : option nat;
  isTracking      : bool;
  locationHistory : list LocationData
}.

Definition initial : Tracker :=
  {| watchId := None; isTracking := false; locationHistory := [] |}.

(** [arr.slice(-k)]: the last [k] elements, the whole array when it is
    shorter. *)
Definition slice_last {A} (k : nat) (arr : list A) : list A :=
  skipn (length arr - k) arr.

Definition fix_of (coords : Coords) (now : Z) : LocationData :=
  {| latitude  := coords_latitude coords;
     longitude := coords_longitude coords;
     accuracy  := number_or_undefined (coords_accuracy coords);
     timestamp := now;
     address   := None |}.

(** The callback given to [watchPositionAsync], location.ts l.104-121: the
    new tracker state and the fix handed to [callback] and to
    [sendLocationUpdate]. *)
Definition watchCallback (coords : Coords) (now : Z) (t : Tracker)
  : Tracker * LocationData :=
  let locationData := fix_of coords now in
  let pushed := locationHistory t ++ [locationData] in
  let kept := if (50 <? length pushed)%nat then slice_last 50 pushed
              else pushed in
  ({| watchId := watchId t; isTracking := isTracking t;
      locationHistory := kept |}, locationData).

(** A stream of platform fixes delivered to the callback, oldest first. *)
Definition deliver (fixes : list (Coords * Z)) (t : Tracker) : Tracker :=
  fold_left (fun t f => fst (watchCallback (fst f) (snd f) t)) fixes t.

(** [getLocationHistory()], l.180-182: a copy of the history. *)
Definition getLocationHistory (t : Tracker) : list LocationData :=
  locationHistory t.

End LocationService.

(** ** services/location.ts on IEEE doubles *)

Module Doubles.

Import PrimFloat.
Local Open Scope float_scope.

(** The functions of the [Math] object that [calculateDistance] calls.  The
    arithmetic operators and [Math.sqrt] are those of IEEE 754 binary64; the
    three below are the engine's. *)
Record MathObject := mkMath {
  Math_sin   : float -> float;
  Math_cos   : float -> float;
  Math_atan2 : float -> float -> float
}.

(** [Math.PI], the double nearest to pi. *)
Definition Math_PI : float := 0x1.921fb54442d18p+1.

(** The two fields of a [LocationData] that the distance reads. *)
Record Position := mkPosition {
  latitude  : float;
  longitude : float
}.

Section Distance.
Variable Math : MathObject.

(** The variable [a] of [calculateDistance], location.ts l.199-206. *)
Definition haversine_term (loc1 loc2 : Position) : float :=
  let phi1 := (latitude loc1 * Math_PI) / 180 in
  let phi2 := (latitude loc2 * Math_PI) / 180 in
  let dphi := ((latitude loc2 - latitude loc1) * Math_PI) / 180 in
  let dlam := ((longitude loc2 - longitude loc1) * Math_PI) / 180 in
  Math_sin Math (dphi / 2) * Math_sin Math (dphi / 2) +
  Math_cos Math phi1 * Math_cos Math phi2 *
  Math_sin Math (dlam / 2) * Math_sin Math (dlam / 2).

(** [calculateDistance(loc1, loc2)], location.ts l.197-210. *)
Definition calculateDistance (loc1 loc2 : Position) : float :=
  let R_ := 6371e3 in
  let a := haversine_term loc1 loc2 in
  let c := 2 * Math_atan2 Math (sqrt a) (sqrt (1 - a)) in
  R_ * c.

End Distance.

(** JavaScript's [x >= y] and [x == y] on numbers. *)
Definition js_ge (x y : float) : bool := y <=? x.
Definition js_eq (x y : float) : bool := x =? y.

End Doubles.

(** ** services/emergency.ts *)

Module EmergencyService.

Inductive ContactType := family | friend | authority.

Record EmergencyContact := mkContact {
  name : string;
  phone : string;
  relationship : string;
  contact_type : ContactType
}.

Inductive AlertType := sos | medical | security | geofence.
Inductive AlertStatus := sent | acknowledged | resolved.

Record AlertLocation := mkAlertLocation {
  alert_latitude  : R;
  alert_longitude : R;
  alert_address   : option string
}.

Record EmergencyAlert := mkAlert {
  id : Z;                       (* the number in [`EMERGENCY-${Date.now()}`] *)
  type : AlertType;
  message : string;
  location : AlertLocation;
  alert_timestamp : Z;
  status : AlertStatus;
  contacts : list string
}.

(** *** Observable effects *)

Inductive HapticKind := NotificationError | NotificationWarning | ImpactHeavy.

Inductive Event :=
| Haptic (kind : HapticKind)
| Dialog (title body : string)            (* [Alert.alert(title, body, ...)] *)
| ConsoleLog (text : string)
| ConsoleError (text : string).

(** The service object and what it has shown and logged so far (oldest
    first). *)
Record World := mkWorld {
  emergencyContacts : list EmergencyContact;
  alertHistory      : list EmergencyAlert;
  events            : list Event
}.

Definition initialContacts : list EmergencyContact :=
  [ mkContact "Local Police" "100" "Authority" authority;
    mkContact "Tourist Helpline" "1363" "Authority" authority;
    mkContact "Medical Emergency" "108" "Authority" authority ].

Definition initial : World :=
  {| emergencyContacts := initialContacts; alertHistory := []; events := [] |}.

(** *** What the collaborators answer during one call *)

Record User := mkUser { walletId : option string; _id : string }.

Record Env := mkEnv {
  haptics_ok : bool;               (* [Haptics.notificationAsync] resolves *)
  dialog_ok  : bool;               (* [Alert.alert] returns normally *)
  platform   : LocationService.Platform;
  date_now   : Z;                  (* [Date.now()] *)
  new_date   : Z;                  (* [new Date()] *)
  stored_user  : option (option User);    (* [None]: the promise rejects *)
  stored_token : option (option string)
}.

(** *** Calls that may throw, over the world *)

Inductive Outcome (A : Type) := Returned (a : A) | Thrown.
Arguments Returned {A} a.
Arguments Thrown {A}.

Definition M (A : Type) : Type := World -> Outcome A * World.

Definition ret {A} (a : A) : M A := fun w => (Returned a, w).
Definition throw {A} : M A := fun w => (Thrown, w).
Definition bind {A B} (m : M A) (k : A -> M B) : M B :=
  fun w => match m w with
           | (Returned a, w') => k a w'
           | (Thrown, w') => (Thrown, w')
           end.
(** [try { body } catch (error) { handler }] *)
Definition try_catch {A} (body handler : M A) : M A :=
  fun w => match body w with
           | (Returned a, w') => (Returned a, w')
           | (Thrown, w') => handler w'
           end.

Notation "x <- m ;; k" := (bind m (fun x => k))
  (at level 100, m at next level, right associativity).
Notation "m ;;; k" := (bind m (fun _ => k))
  (at level 100, right associativity).

Definition emit (e : Event) : M unit :=
  fun w => (Returned tt,
            {| emergencyContacts := emergencyContacts w;
               alertHistory := alertHistory w;
               events := events w ++ [e] |}).

(** [this.alertHistory.unshift(alert)] *)
Definition unshift (alert : EmergencyAlert) : M unit :=
  fun w => (Returned tt,
            {| emergencyContacts := emergencyContacts w;
               alertHistory := alert :: alertHistory w;
               events := events w |}).

Definition get_contacts : M (list EmergencyContact) :=
  fun w => (Returned (emergencyContacts w), w).

Definition notificationAsync (env : Env) (kind : HapticKind) : M unit :=
  if haptics_ok env then emit (Haptic kind) else throw.

Definition Alert_alert (env : Env) (title body : string) : M unit :=
  if dialog_ok env then emit (Dialog title body) else throw.

(** [await Storage.getJsonItem('user')], [await Storage.getItem('token')] *)
Definition await {A} (answer : option A) : M A :=
  match answer with Some a => ret a | None => throw end.

(** *** Panic alert *)

(** [sendEmergencyAlert(alert)], emergency.ts l.80-110.  The request itself
    is commented out in the source: the payload is only logged. *)
Definition sendEmergencyAlert (env : Env) (alert : EmergencyAlert) : M unit :=
  try_catch
    (user <- await (stored_user env) ;;
     token <- await (stored_token env) ;;
     match user, token with
     | Some _, Some (String _ _) =>
         emit (ConsoleLog "Sending emergency alert to backend:")
     | _, _ => emit (ConsoleLog "No user or token found for emergency alert")
     end)
    (emit (ConsoleError "Error sending emergency alert to backend:")).

Definition nl : string := String (Ascii.ascii_of_nat 10) "".

Definition contact_line (c : EmergencyContact) : string :=
  String.append (name c) (String.append ": " (phone c)).

(** [notifyEmergencyContacts(alert)], emergency.ts l.112-138. *)
Definition notifyEmergencyContacts (env : Env) (alert : EmergencyAlert)
  : M unit :=
  try_catch
    (cs <- get_contacts ;;
     let contactList := String.concat nl (map contact_line cs) in
     Alert_alert env "Emergency Alert Sent"
       (String.concat ""
          [ "Your emergency alert has been sent to:"%string; nl; nl;
            contactList; nl; nl; "Location: "%string;
            LocationService.string_or (alert_address (location alert))
                                      "Current Location";
            nl; nl;
            "Help is on the way. Stay calm and stay visible."%string ]))
    (emit (ConsoleError "Error notifying emergency contacts:")).

(** [message || 'Emergency assistance required'] *)
Definition message_or_default (message : option string) : string :=
  LocationService.string_or message "Emergency assistance required".

(** [triggerPanicAlert(message?)], emergency.ts l.37-78. *)
Definition triggerPanicAlert (env : Env) (message : option string) : M bool :=
  try_catch
    (notificationAsync env NotificationError ;;;
     match LocationService.getCurrentLocation (platform env) with
     | None =>
         Alert_alert env "Error"
           "Unable to get your current location for emergency alert" ;;;
         ret false
     | Some loc =>
         cs <- get_contacts ;;
         let alert :=
           {| id := date_now env;
              type := sos;
              message := message_or_default message;
              location := {| alert_latitude := latitude loc;
                             alert_longitude := longitude loc;
                             alert_address := address loc |};
              alert_timestamp := new_date env;
              status := sent;
              contacts := map phone cs |} in
         unshift alert ;;;
         sendEmergencyAlert env alert ;;;
         notifyEmergencyContacts env alert ;;;
         ret true
     end)
    (emit (ConsoleError "Error triggering panic alert:") ;;; ret false).

(** [getAlertHistory()], l.170-172: a copy of the history. *)
Definition getAlertHistory (w : World) : list EmergencyAlert := alertHistory w.

(** *** Geofence *)

Record RestrictedArea := mkArea {
  lat : R;
  lng : R;
  radius : R;
  area_name : string
}.

Definition restrictedAreas : list RestrictedArea :=
  [ mkArea 25.5788 91.8933 1000 "Restricted Military Zone";
    mkArea 25.4670 91.3662 500 "Protected Forest Area" ].

Record LatLng := mkLatLng { ll_latitude : R; ll_longitude : R }.

Section Geofence.
Local Open Scope R_scope.

(** [calculateDistance(loc1, loc2)], emergency.ts l.205-218: the private copy
    of the haversine formula. *)
Definition calculateDistance (loc1 loc2 : LatLng) : R :=
  let R_ := 6371000 in
  let phi1 := (ll_latitude loc1 * PI) / 180 in
  let phi2 := (ll_latitude loc2 * PI) / 180 in
  let dphi := ((ll_latitude loc2 - ll_latitude loc1) * PI) / 180 in
  let dlam := ((ll_longitude loc2 - ll_longitude loc1) * PI) / 180 in
  let a := sin (dphi / 2) * sin (dphi / 2) +
           cos phi1 * cos phi2 *
           sin (dlam / 2) * sin (dlam / 2) in
  let c := 2 * Math_atan2 (sqrt a) (sqrt (1 - a)) in
  R_ * c.

(** The distance computed in the loop body, l.186-189. *)
Definition distance_to (location : LocationData) (area : RestrictedArea) : R :=
  calculateDistance
    {| ll_latitude := latitude location; ll_longitude := longitude location |}
    {| ll_latitude := lat area; ll_longitude := lng area |}.

(** The loop test [distance <= area.radius], l.191. *)
Definition within (location : LocationData) (area : RestrictedArea) : bool :=
  if Rle_dec (distance_to location area) (radius area) then true else false.

End Geofence.

Definition geofence_body (areaName : string) : string :=
  String.append "You are approaching a restricted area: "
    (String.append areaName
       ". Please maintain safe distance and follow local guidelines.").

(** [triggerGeofenceAlert(areaName, location)], emergency.ts l.220-231. *)
Definition triggerGeofenceAlert (env : Env) (areaName : string)
                                (location : LocationData) : M unit :=
  notificationAsync env NotificationWarning ;;;
  Alert_alert env "Geofence Alert" (geofence_body areaName).

(** The [for (const area of restrictedAreas)] loop with its early return,
    l.185-198. *)
Fixpoint check_areas (env : Env) (location : LocationData)
                     (areas : list RestrictedArea) : M bool :=
  match areas with
  | [] => ret false
  | area :: rest =>
      if within location area then
        triggerGeofenceAlert env (area_name area) location ;;; ret true
      else check_areas env location rest
  end.

(** [checkGeofenceViolation(location)], emergency.ts l.174-203, over a zone
    table. *)
Definition checkGeofenceViolationIn (areas : list RestrictedArea)
    (env : Env) (location : LocationData) : M bool :=
  try_catch
    (check_areas env location areas)
    (emit (ConsoleError "Error checking geofence:") ;;; ret false).

Definition checkGeofenceViolation : Env -> LocationData -> M bool :=
  checkGeofenceViolationIn restrictedAreas.

(** A stream of fixes, each checked in turn (with what the collaborators
    answer during that check). *)
Definition check_fixes (fixes : list (Env * LocationData)) (w : World)
  : list (Outcome bool) * World :=
  fold_left (fun acc f =>
               let r := checkGeofenceViolation (fst f) (snd f) (snd acc) in
               (fst acc ++ [fst r], snd r))
            fixes ([], w).

Definition is_geofence_alert (e : Event) : bool :=
  match e with
  | Dialog title _ => String.eqb title "Geofence Alert"
  | _ => false
  end.

(** The number of geofence alerts shown so far. *)
Definition geofence_alerts (w : World) : nat :=
  length (List.filter is_geofence_alert (events w)).

End EmergencyService.

(** ** The panic button of the safety screen, (tabs)/index.tsx *)

Module Safety.

Import EmergencyService.

(** The component's state: the three [useState] cells, the [countdownRef]
    cell, the interval timers the runtime has scheduled (each with the
    [count] variable its callback closes over), the calls of
    [triggerPanicAlert] still awaited, and the service they act on. *)
Record State := mkState {
  emergencyActive : bool;
  panicPressed    : bool;
  countdown       : Z;
  countdownRef    : option nat;
  intervals       : gmap nat Z;
  nextTimerId     : nat;
  awaited         : list (option string);
  service         : World
}.

Definition mounted (w : World) : State :=
  {| emergencyActive := false; panicPressed := false; countdown := 0;
     countdownRef := None; intervals := ∅; nextTimerId := 1;
     awaited := []; service := w |}.

(** [clearInterval(id)] / [clearTimeout(id)]: both remove the timer. *)
Definition clearTimer (id : nat) (timers : gmap nat Z) : gmap nat Z :=
  delete id timers.

Definition log_event (e : Event) (w : World) : World :=
  snd (emit e w).

(** [startPanicSequence()], l.727-761. *)
Definition startPanicSequence (s : State) : State :=
  let countdownInterval := nextTimerId s in
  {| emergencyActive := emergencyActive s;
     panicPressed := true;
     countdown := 3;
     countdownRef := Some countdownInterval;
     intervals := <[countdownInterval := 3%Z]> (intervals s);
     nextTimerId := S (nextTimerId s);
     awaited := awaited s;
     service := log_event (Haptic ImpactHeavy) (service s) |}.

(** [cancelPanicSequence()], l.763-771. *)
Definition cancelPanicSequence (s : State) : State :=
  {| emergencyActive := emergencyActive s;
     panicPressed := false;
     countdown := 0;
     countdownRef := None;
     intervals := match countdownRef s with
                  | Some id => clearTimer id (intervals s)
                  | None => intervals s
                  end;
     nextTimerId := nextTimerId s;
     awaited := awaited s;
     service := service s |}.

Definition panic_message : option string :=
  Some "Emergency assistance required - Panic button activated"%string.

(** [triggerEmergency()] up to its [await], l.773-794: the state updates, and
    the call of [triggerPanicAlert] that is now awaited. *)
Definition triggerEmergency (s : State) : State :=
  {| emergencyActive := true;
     panicPressed := false;
     countdown := countdown s;
     countdownRef := countdownRef s;
     intervals := intervals s;
     nextTimerId := nextTimerId s;
     awaited := awaited s ++ [panic_message];
     service := service s |}.

Definition failed_to_send : string :=
  "Failed to send emergency alert. Please try calling emergency services directly.".

(** [triggerEmergency()] after its [await], l.796-821: the oldest awaited
    call runs against the service; on failure the emergency is switched off
    again and an error dialog is shown.  (The dialog of the success branch is
    guarded by the value of [emergencyActive] captured when the countdown
    started, which is [false]: it is never shown.) *)
Definition alertSettled (env : Env) (s : State) : State :=
  match awaited s with
  | [] => s
  | message :: later =>
      let r := triggerPanicAlert env message (service s) in
      let resumed (active : bool) (w : World) :=
        {| emergencyActive := active;
           panicPressed := panicPressed s;
           countdown := countdown s;
           countdownRef := countdownRef s;
           intervals := intervals s;
           nextTimerId := nextTimerId s;
           awaited := later;
           service := w |} in
      match fst r with
      | Returned true => resumed (emergencyActive s) (snd r)
      | Returned false =>
          resumed false (log_event (Dialog "Error" failed_to_send) (snd r))
      | Thrown => resumed (emergencyActive s) (snd r)
      end
  end.

(** [cancelEmergency()], l.824-836. *)
Definition cancelEmergency (s : State) : State :=
  {| emergencyActive := false;
     panicPressed := false;
     countdown := 0;
     countdownRef := None;
     intervals := match countdownRef s with
                  | Some id => clearTimer id (intervals s)
                  | None => intervals s
                  end;
     nextTimerId := nextTimerId s;
     awaited := awaited s;
     service := service s |}.

(** One firing of the interval callback of timer [id], l.736-744; a timer
    that is not scheduled does not fire. *)
Definition tick (id : nat) (s : State) : State :=
  match intervals s !! id with
  | None => s
  | Some count =>
      let count := (count - 1)%Z in
      let s1 := {| emergencyActive := emergencyActive s;
                   panicPressed := panicPressed s;
                   countdown := count;
                   countdownRef := countdownRef s;
                   intervals := <[id := count]> (intervals s);
                   nextTimerId := nextTimerId s;
                   awaited := awaited s;
                   service := service s |} in
      if (count <=? 0)%Z then
        triggerEmergency
          {| emergencyActive := emergencyActive s1;
             panicPressed := panicPressed s1;
             countdown := countdown s1;
             countdownRef := countdownRef s1;
             intervals := clearTimer id (intervals s1);
             nextTimerId := nextTimerId s1;
             awaited := awaited s1;
             service := service s1 |}
      else s1
  end.

(** The button's handlers as rendered for the current state, l.920-921. *)
Definition onPress (s : State) : State :=
  if emergencyActive s then cancelEmergency s else startPanicSequence s.

Definition onPressOut (s : State) : State :=
  if panicPressed s && negb (emergencyActive s) then cancelPanicSequence s
  else s.

(** The cleanup of the mount effect, l.690-694. *)
Definition unmount (s : State) : State :=
  {| emergencyActive := emergencyActive s;
     panicPressed := panicPressed s;
     countdown := countdown s;
     countdownRef := countdownRef s;
     intervals := match countdownRef s with
                  | Some id => clearTimer id (intervals s)
                  | None => intervals s
                  end;
     nextTimerId := nextTimerId s;
     awaited := awaited s;
     service := service s |}.

(** The panic state the screen shows: the button label of l.926-928. *)
Inductive PanicState := Idle | CountingDown (remaining : Z) | Active.

Definition panicState (s : State) : PanicState :=
  if emergencyActive s then Active
  else if panicPressed s then CountingDown (countdown s)
  else Idle.

(** What can happen to the mounted component. *)
Inductive Action :=
| Press
| PressOut
| Tick (id : nat)
| AlertSettled (env : Env).

Definition step (s : State) (a : Action) : State :=
  match a with
  | Press => onPress s
  | PressOut => onPressOut s
  | Tick id => tick id s
  | AlertSettled env => alertSettled env s
  end.

Definition run (s : State) (actions : list Action) : State :=
  fold_left step actions s.

(** The sos alerts the service has recorded. *)
Definition sos_alerts (s : State) : list EmergencyAlert :=
  List.filter (fun a => match type a with sos => true | _ => false end)
         (alertHistory (service s)).

End Safety.

(** * The rest of the code *)

(** The collaborator answered (the promise did not reject, the value is not
    null). *)
Definition answered {A} (o : option A) : bool :=
  match o with Some _ => true | None => false end.


(** ** Tracking: the rest of services/location.ts *)

Module Tracking.

Import LocationService.

(** The service object together with the two collaborators its tracking
    methods act on: the platform's live position subscriptions and the
    key-value storage. *)
Record Device := mkDevice {
  tracker          : Tracker;
  subscriptions    : gset nat;
  nextSubscription : nat;
  storage          : gmap string string
}.

(** A new service object on a device whose storage holds nothing yet. *)
Definition fresh : Device :=
  {| tracker := LocationService.initial; subscriptions := ∅;
     nextSubscription := 1; storage := ∅ |}.

(** What the collaborators answer during one call. *)
Record Answers := mkAnswers {
  permissions : Platform;   (* only its two permission answers are used *)
  watch_ok    : bool;       (* [Location.watchPositionAsync] resolves *)
  remove_ok   : bool;       (* [subscription.remove()] returns *)
  storage_ok  : bool        (* the [Storage] call resolves *)
}.

Definition set_tracker (t : Tracker) (d : Device) : Device :=
  {| tracker := t; subscriptions := subscriptions d;
     nextSubscription := nextSubscription d; storage := storage d |}.

Definition setItem (key value : string) (d : Device) : Device :=
  {| tracker := tracker d; subscriptions := subscriptions d;
     nextSubscription := nextSubscription d;
     storage := <[key := value]> (storage d) |}.

(** [startTracking(callback)], location.ts l.88-132: the result and the
    device afterwards. *)
Definition startTracking (a : Answers) (d : Device) : bool * Device :=
  if negb (requestPermissions (permissions a)) then (false, d)
  else if isTracking (tracker d) then (true, d)
  else if negb (watch_ok a) then (false, d)
  else
    let id := nextSubscription d in
    let d1 :=
      {| tracker := {| watchId := Some id; isTracking := true;
                       locationHistory := locationHistory (tracker d) |};
         subscriptions := {[ id ]} ∪ subscriptions d;
         nextSubscription := S id;
         storage := storage d |} in
    if storage_ok a then (true, setItem "locationTracking" "true" d1)
    else (false, d1).

(** [stopTracking()], location.ts l.134-146. *)
Definition stopTracking (a : Answers) (d : Device) : Device :=
  let removed :=
    match watchId (tracker d) with
    | Some id =>
        if remove_ok a then
          Some {| tracker := {| watchId := None;
                                isTracking := isTracking (tracker d);
                                locationHistory := locationHistory (tracker d) |};
                  subscriptions := subscriptions d ∖ {[ id ]};
                  nextSubscription := nextSubscription d;
                  storage := storage d |}
        else None
    | None => Some d
    end in
  match removed with
  | None => d
  | Some d1 =>
      let d2 := set_tracker {| watchId := watchId (tracker d1);
                               isTracking := false;
                               locationHistory := locationHistory (tracker d1) |}
                            d1 in
      if storage_ok a then setItem "locationTracking" "false" d2 else d2
  end.

(** [isCurrentlyTracking()], l.184-186. *)
Definition isCurrentlyTracking (d : Device) : bool := isTracking (tracker d).

(** [getStoredTrackingPreference()], l.188-195. *)
Definition getStoredTrackingPreference (a : Answers) (d : Device) : bool :=
  if storage_ok a then
    match storage d !! "locationTracking" with
    | Some stored => String.eqb stored "true"
    | None => false
    end
  else false.

(** The platform hands a fix to the callback that the start of subscription
    [id] registered, l.104-121.  The callback tests nothing: it records the
    fix whether or not the subscription is still live.  Only a callback that
    was never registered cannot run. *)
Definition platformFix (id : nat) (coords : Coords) (now : Z) (d : Device)
  : Device :=
  if (1 <=? id)%nat && (id <? nextSubscription d)%nat
  then set_tracker (fst (watchCallback coords now (tracker d))) d
  else d.

(** What happens to the device, one call at a time. *)
Inductive Call :=
| Start (a : Answers)
| Stop (a : Answers)
| Fix (id : nat) (coords : Coords) (now : Z).

Definition perform (d : Device) (c : Call) : Device :=
  match c with
  | Start a => snd (startTracking a d)
  | Stop a => stopTracking a d
  | Fix id coords now => platformFix id coords now d
  end.

Definition performAll (d : Device) (calls : list Call) : Device :=
  fold_left perform calls d.

(** Every storage access of the calls answers. *)
Definition storage_answers (c : Call) : bool :=
  match c with
  | Start a | Stop a => storage_ok a
  | Fix _ _ _ => true
  end.

End Tracking.

(** ** Contacts and incident reports: the rest of services/emergency.ts *)

Module EmergencyOps.

Import EmergencyService.

Definition set_contacts (cs : list EmergencyContact) : M unit :=
  fun w => (Returned tt,
            {| emergencyContacts := cs;
               alertHistory := alertHistory w;
               events := events w |}).

(** [await Storage.setJsonItem(key, value)]: resolves, or rejects. *)
Definition setJsonItem (write_ok : bool) : M unit :=
  if write_ok then ret tt else throw.

(** [addEmergencyContact(contact)], emergency.ts l.156-159. *)
Definition addEmergencyContact (write_ok : bool) (contact : EmergencyContact)
  : M unit :=
  cs <- get_contacts ;;
  set_contacts (cs ++ [contact]) ;;;
  setJsonItem write_ok.

(** [c.phone !== phone] *)
Definition other_phone (p : string) (c : EmergencyContact) : bool :=
  negb (String.eqb (phone c) p).

(** [removeEmergencyContact(phone)], emergency.ts l.161-164. *)
Definition removeEmergencyContact (write_ok : bool) (p : string) : M unit :=
  cs <- get_contacts ;;
  set_contacts (List.filter (other_phone p) cs) ;;;
  setJsonItem write_ok.

(** [getEmergencyContacts()], l.166-168: a copy of the list. *)
Definition getEmergencyContacts (w : World) : list EmergencyContact :=
  emergencyContacts w.

Definition incident_reference (env : Env) : string :=
  String.append "INCIDENT-" (pretty (date_now env)).

(** [reportIncident(type, description, location?)], emergency.ts l.251-284. *)
Definition reportIncident (env : Env) (type description : string)
    (location : option LocationData) : M bool :=
  try_catch
    (let currentLocation :=
       match location with
       | Some given => Some given
       | None => LocationService.getCurrentLocation (platform env)
       end in
     match currentLocation with
     | None =>
         Alert_alert env "Error" "Unable to get location for incident report" ;;;
         ret false
     | Some _ =>
         reportedBy <- await (stored_user env) ;;
         emit (ConsoleLog "Reporting incident:") ;;;
         Alert_alert env "Incident Reported"
           (String.append
              "Your incident report has been submitted to the authorities. Reference ID: "
              (incident_reference env)) ;;;
         ret true
     end)
    (emit (ConsoleError "Error reporting incident:") ;;; ret false).

(** The public methods of the service that change or use its state, one
    call at a time. *)
Inductive Op :=
| TriggerPanicAlert (env : Env) (message : option string)
| CheckGeofenceViolation (env : Env) (location : LocationData)
| AddEmergencyContact (write_ok : bool) (contact : EmergencyContact)
| RemoveEmergencyContact (write_ok : bool) (p : string)
| ReportIncident (env : Env) (type description : string)
                 (location : option LocationData).

Definition apply_op (w : World) (op : Op) : World :=
  match op with
  | TriggerPanicAlert env message => snd (triggerPanicAlert env message w)
  | CheckGeofenceViolation env location =>
      snd (checkGeofenceViolation env location w)
  | AddEmergencyContact write_ok contact =>
      snd (addEmergencyContact write_ok contact w)
  | RemoveEmergencyContact write_ok p =>
      snd (removeEmergencyContact write_ok p w)
  | ReportIncident env type description location =>
      snd (reportIncident env type description location w)
  end.

Definition apply_ops (w : World) (ops : list Op) : World :=
  fold_left apply_op ops w.

Definition is_trigger (op : Op) : bool :=
  match op with TriggerPanicAlert _ _ => true | _ => false end.

End EmergencyOps.

(** ** The dashboard screen, (tabs)/index.tsx (component [Dashboard]) *)

Module Dashboard.

Import LocationService.

(** The screen's own [LocationData]: no accuracy, a fixed address. *)
Record Place := mkPlace {
  place_latitude  : R;
  place_longitude : R;
  place_address   : option string;
  place_timestamp : Z
}.

Record State := mkState {
  location        : option Place;
  safetyScore     : Z;
  isTracking      : bool;
  locationHistory : list Place;
  dialogs         : list string          (* titles of the alerts shown *)
}.

(** The state of the first render, l.32-36. *)
Definition initial : State :=
  {| location := None; safetyScore := 85; isTracking := false;
     locationHistory := []; dialogs := [] |}.

(** What the platform answers during one [getLocation]: the permission
    request and the position fetch ([None]: the promise rejects), the clock,
    and the value of [Math.random()]. *)
Record Answer := mkAnswer {
  permission : option PermissionStatus;
  position   : option Coords;
  now        : Z;
  random     : R
}.

Definition place_of (a : Answer) (coords : Coords) : Place :=
  {| place_latitude := coords_latitude coords;
     place_longitude := coords_longitude coords;
     place_address := Some "Shillong, Meghalaya, India"%string;
     place_timestamp := now a |}.

(** [Math.floor(Math.random() * 20) + 75], l.98. *)
Definition newScore (a : Answer) : Z := (Int_part (random a * 20) + 75)%Z.

(** [getLocation()], l.73-104. *)
Definition getLocation (a : Answer) (s : State) : State :=
  match permission a with
  | None => s
  | Some status =>
      if negb (permission_granted status) then
        {| location := location s; safetyScore := safetyScore s;
           isTracking := isTracking s; locationHistory := locationHistory s;
           dialogs := dialogs s ++ ["Permission denied"%string] |}
      else
        match position a with
        | None => s
        | Some coords =>
            let newLocation := place_of a coords in
            {| location := Some newLocation;
               safetyScore := newScore a;
               isTracking := isTracking s;
               locationHistory := newLocation :: firstn 9 (locationHistory s);
               dialogs := dialogs s |}
        end
  end.

(** [toggleTracking()], l.106-114. *)
Definition toggleTracking (s : State) : State :=
  {| location := location s; safetyScore := safetyScore s;
     isTracking := negb (isTracking s);
     locationHistory := locationHistory s;
     dialogs := dialogs s ++ [if isTracking s then "Tracking Disabled"%string
                              else "Tracking Enabled"%string] |}.

(** The callback of the 30-second interval, l.64-68. *)
Definition intervalTick (a : Answer) (s : State) : State :=
  if isTracking s then getLocation a s else s.

Inductive Color := Green | Amber | Red.

(** The hex colours of the two helpers. *)
Definition hex (c : Color) : string :=
  match c with
  | Green => "#16A34A" | Amber => "#F59E0B" | Red => "#DC2626"
  end.

(** [getSafetyColor(score)], l.125-129. *)
Definition getSafetyColor (score : Z) : string :=
  if (80 <=? score)%Z then hex Green
  else if (60 <=? score)%Z then hex Amber
  else hex Red.

(** [getSafetyStatus(score)], l.131-135. *)
Definition getSafetyStatus (score : Z) : string :=
  if (80 <=? score)%Z then "Safe"
  else if (60 <=? score)%Z then "Caution"
  else "High Risk".

(** What happens on the screen. *)
Inductive Action :=
| Refresh (a : Answer)   (* the effect on mount and after a toggle, or a
                            pull to refresh *)
| IntervalTick (a : Answer)
| ToggleTracking.

Definition step (s : State) (act : Action) : State :=
  match act with
  | Refresh a => getLocation a s
  | IntervalTick a => intervalTick a s
  | ToggleTracking => toggleTracking s
  end.

Definition run (s : State) (acts : list Action) : State :=
  fold_left step acts s.

(** [Math.random()] answered within its range in every action. *)
Definition random_in_range (act : Action) : Prop :=
  match act with
  | Refresh a | IntervalTick a => (0 <= random a < 1)%R
  | ToggleTracking => True
  end.

(** The place a [getLocation] with this answer records, if it gets one. *)
Definition located (a : Answer) : option Place :=
  match permission a, position a with
  | Some status, Some coords =>
      if permission_granted status then Some (place_of a coords) else None
  | _, _ => None
  end.

End Dashboard.

(** ** KYC: services/kyc.ts and the (auth)/kyc-verification.tsx screen *)

Module KYC.

(** *** The demo service, kyc.ts l.118-166 *)

Record KYCSubmissionData := mkSubmission {
  sub_name : string;
  sub_dob  : string;
  sub_nationality    : option string;
  sub_aadhaarNumber  : option string;
  sub_passportNumber : option string
}.

Record KYCResponse := mkResponse {
  success : bool;
  response_message : option string;
  response_requestId : option Z     (* the number in [`KYC-${Date.now()}`] *)
}.

(** A string is truthy when it is not empty. *)
Definition truthy (s : string) : bool :=
  match s with EmptyString => false | String _ _ => true end.

Definition truthy_opt (s : option string) : bool :=
  match s with Some v => truthy v | None => false end.

(** [submitKycDemo(data)], kyc.ts l.118-145. *)
Definition submitKycDemo (now : Z) (data : KYCSubmissionData) : KYCResponse :=
  if negb (truthy (sub_name data)) || negb (truthy (sub_dob data)) then
    {| success := false;
       response_message := Some "Name and date of birth are required"%string;
       response_requestId := None |}
  else if negb (truthy_opt (sub_aadhaarNumber data)) &&
          negb (truthy_opt (sub_passportNumber data)) then
    {| success := false;
       response_message :=
         Some "Either Aadhaar number or passport number is required"%string;
       response_requestId := None |}
  else
    {| success := true; response_message := None;
       response_requestId := Some now |}.

(** [verifyOtpDemo(data)], kyc.ts l.147-166; the length of a string is its
    number of characters. *)
Definition verifyOtpDemo (requestId : Z) (otp : string) : KYCResponse :=
  if negb (String.length otp =? 6)%nat then
    {| success := false;
       response_message := Some "Please enter a valid 6-digit OTP"%string;
       response_requestId := None |}
  else
    {| success := true; response_message := None;
       response_requestId := Some requestId |}.

(** *** The screen, kyc-verification.tsx *)

Inductive DocumentType := photo | document.

Record Document := mkDocument {
  uri : string;
  doc_name : string;
  doc_type : DocumentType
}.

Record FormData := mkForm {
  name : string;
  dob : string;
  aadhaarNumber : string;
  passportNumber : string;
  nationality : string;
  otp : string
}.

Record Screen := mkScreen {
  currentStep  : Z;                 (* 1, 2 or 3 *)
  otpTimer     : Z;
  requestId    : option Z;
  documents    : list Document;
  formData     : FormData;
  otpIntervals : gset nat;          (* the interval timers still scheduled *)
  nextInterval : nat;
  shown        : list string        (* titles of the alerts shown *)
}.

(** The first render, l.29-42, for a user name. *)
Definition first_render (userName : string) : Screen :=
  {| currentStep := 1; otpTimer := 0; requestId := None; documents := [];
     formData := {| name := userName; dob := ""; aadhaarNumber := "";
                    passportNumber := ""; nationality := "India"; otp := "" |};
     otpIntervals := ∅; nextInterval := 1; shown := [] |}.

(** The test that guards the submission and disables its button,
    l.47 and l.297-299. *)
Definition required_missing (f : FormData) : bool :=
  negb (truthy (name f)) || negb (truthy (dob f)) ||
  (negb (truthy (aadhaarNumber f)) && negb (truthy (passportNumber f))).

(** [startOtpTimer()], l.146-157: the counter is set to 60 and a new
    interval is scheduled. *)
Definition startOtpTimer (s : Screen) : Screen :=
  {| currentStep := currentStep s; otpTimer := 60; requestId := requestId s;
     documents := documents s; formData := formData s;
     otpIntervals := {[ nextInterval s ]} ∪ otpIntervals s;
     nextInterval := S (nextInterval s); shown := shown s |}.

(** One firing of the interval [id], l.148-156. *)
Definition otpTick (id : nat) (s : Screen) : Screen :=
  if bool_decide (id ∈ otpIntervals s) then
    if (otpTimer s <=? 1)%Z then
      {| currentStep := currentStep s; otpTimer := 0; requestId := requestId s;
         documents := documents s; formData := formData s;
         otpIntervals := otpIntervals s ∖ {[ id ]};
         nextInterval := nextInterval s; shown := shown s |}
    else
      {| currentStep := currentStep s; otpTimer := otpTimer s - 1;
         requestId := requestId s;
         documents := documents s; formData := formData s;
         otpIntervals := otpIntervals s;
         nextInterval := nextInterval s; shown := shown s |}
  else s.

Definition show (title : string) (s : Screen) : Screen :=
  {| currentStep := currentStep s; otpTimer := otpTimer s;
     requestId := requestId s; documents := documents s;
     formData := formData s; otpIntervals := otpIntervals s;
     nextInterval := nextInterval s; shown := shown s ++ [title] |}.

(** [handleSubmitKyc()], l.44-76. *)
Definition handleSubmitKyc (now : Z) (s : Screen) : Screen :=
  if required_missing (formData s) then show "Error" s
  else
    show "Success"
      (startOtpTimer
         {| currentStep := 2; otpTimer := otpTimer s; requestId := Some now;
            documents := documents s; formData := formData s;
            otpIntervals := otpIntervals s;
            nextInterval := nextInterval s; shown := shown s |}).

(** [handleVerifyOtp()], l.78-106; [refresh_ok]: [refreshUser()] resolves. *)
Definition handleVerifyOtp (refresh_ok : bool) (s : Screen) : Screen :=
  if negb (truthy (otp (formData s))) || negb (answered (requestId s))
  then show "Error" s
  else
    show (if refresh_ok then "Success" else "Error")
      {| currentStep := 3; otpTimer := otpTimer s; requestId := requestId s;
         documents := documents s; formData := formData s;
         otpIntervals := otpIntervals s;
         nextInterval := nextInterval s; shown := shown s |}.

(** [resendOtp()], l.159-163. *)
Definition resendOtp (s : Screen) : Screen :=
  if (0 <? otpTimer s)%Z then s else startOtpTimer (show "OTP" s).

Definition set_documents (docs : list Document) (s : Screen) : Screen :=
  {| currentStep := currentStep s; otpTimer := otpTimer s;
     requestId := requestId s; documents := docs;
     formData := formData s; otpIntervals := otpIntervals s;
     nextInterval := nextInterval s; shown := shown s |}.

(** [prev.filter((_, i) => i !== index)] *)
Fixpoint filter_index {A} (keep : nat -> bool) (from : nat) (l : list A)
  : list A :=
  match l with
  | [] => []
  | x :: rest =>
      if keep from then x :: filter_index keep (S from) rest
      else filter_index keep (S from) rest
  end.

(** [removeDocument(index)], l.142-144. *)
Definition removeDocument (index : nat) (s : Screen) : Screen :=
  set_documents
    (filter_index (fun i => negb (i =? index)%nat) 0 (documents s)) s.

(** [pickImage()] / [pickDocument()] with a picked asset, l.108-140. *)
Definition addDocument (doc : Document) (s : Screen) : Screen :=
  set_documents (documents s ++ [doc]) s.

Definition set_otp (text : string) (s : Screen) : Screen :=
  {| currentStep := currentStep s; otpTimer := otpTimer s;
     requestId := requestId s; documents := documents s;
     formData := {| name := name (formData s); dob := dob (formData s);
                    aadhaarNumber := aadhaarNumber (formData s);
                    passportNumber := passportNumber (formData s);
                    nationality := nationality (formData s); otp := text |};
     otpIntervals := otpIntervals s;
     nextInterval := nextInterval s; shown := shown s |}.

Definition set_form (f : FormData) (s : Screen) : Screen :=
  {| currentStep := currentStep s; otpTimer := otpTimer s;
     requestId := requestId s; documents := documents s;
     formData := f; otpIntervals := otpIntervals s;
     nextInterval := nextInterval s; shown := shown s |}.

(** What the user and the timers can do; a control acts only in the step
    that renders it, and a disabled button does not act (l.169-414). *)
Inductive Action :=
| EditForm (f : FormData)          (* the inputs of step 1; [otp] is kept *)
| EditOtp (text : string)          (* the input of step 2 *)
| PressSubmit (now : Z)
| PressVerify (refresh_ok : bool)
| PressResend
| OtpTick (id : nat)
| AddDocument (doc : Document)
| RemoveDocument (index : nat).

Definition step (s : Screen) (a : Action) : Screen :=
  match a with
  | EditForm f =>
      if (currentStep s =? 1)%Z
      then set_form {| name := name f; dob := dob f;
                       aadhaarNumber := aadhaarNumber f;
                       passportNumber := passportNumber f;
                       nationality := nationality f;
                       otp := otp (formData s) |} s
      else s
  | EditOtp text => if (currentStep s =? 2)%Z then set_otp text s else s
  | PressSubmit now =>
      if (currentStep s =? 1)%Z && negb (required_missing (formData s))
      then handleSubmitKyc now s else s
  | PressVerify refresh_ok =>
      if (currentStep s =? 2)%Z && truthy (otp (formData s))
      then handleVerifyOtp refresh_ok s else s
  | PressResend =>
      if (currentStep s =? 2)%Z && negb (0 <? otpTimer s)%Z
      then resendOtp s else s
  | OtpTick id => otpTick id s
  | AddDocument doc =>
      if (currentStep s =? 1)%Z then addDocument doc s else s
  | RemoveDocument index =>
      if (currentStep s =? 1)%Z then removeDocument index s else s
  end.

Definition run (s : Screen) (actions : list Action) : Screen :=
  fold_left step actions s.

End KYC.

(** ** Vocabulary for the tracking properties *)

(** The subscription the tracker holds, as a set. *)
Definition held (d : Tracking.Device) : gset nat :=
  match LocationService.watchId (Tracking.tracker d) with
  | Some id => {[ id ]}
  | None => ∅
  end.

(** What every reachable device satisfies. *)
Definition consistent (d : Tracking.Device) : Prop :=
  Tracking.subscriptions d = held d /\
  LocationService.isTracking (Tracking.tracker d) = bool_decide (LocationService.watchId (Tracking.tracker d) <> None) /\
  (length (LocationService.locationHistory (Tracking.tracker d)) <= 50)%nat.

(** The tracking preference as the storage holds it. *)
Definition stored_preference (d : Tracking.Device) : bool :=
  match Tracking.storage d !! "locationTracking"%string with
  | Some stored => String.eqb stored "true"
  | None => false
  end.

(** Every collaborator of the tracking calls answers, permission is
    granted. *)
Definition granted_answers : Tracking.Answers :=
  {| Tracking.permissions :=
       LocationService.mkPlatform (Some LocationService.granted)
         (Some LocationService.granted) None None 0;
     Tracking.watch_ok := true; Tracking.remove_ok := true;
     Tracking.storage_ok := true |}.

(** The same, but the storage rejects. *)
Definition storage_down : Tracking.Answers :=
  {| Tracking.permissions :=
       LocationService.mkPlatform (Some LocationService.granted)
         (Some LocationService.granted) None None 0;
     Tracking.watch_ok := true; Tracking.remove_ok := true;
     Tracking.storage_ok := false |}.

(** A new service object on a device whose storage still holds the
    preference of an earlier session that ended while tracking was on. *)
Definition restarted : Tracking.Device :=
  {| Tracking.tracker := LocationService.initial;
     Tracking.subscriptions := ∅;
     Tracking.nextSubscription := 1;
     Tracking.storage := {[ "locationTracking"%string := "true"%string ]} |}.

(** ** Vocabulary for the service properties *)

(** A recorded alert as [triggerPanicAlert] leaves it. *)
Definition fresh_sos (a : EmergencyService.EmergencyAlert) : Prop :=
  EmergencyService.type a = EmergencyService.sos /\
  EmergencyService.status a = EmergencyService.sent.

(** ** Vocabulary for the panic button properties *)

(** Every press of the run comes while the button is not held down counting
    (the state is Idle, or an emergency is active). *)
Fixpoint disciplined (s : Safety.State) (actions : list Safety.Action) : bool :=
  match actions with
  | [] => true
  | a :: rest =>
      match a with
      | Safety.Press => negb (Safety.panicPressed s) || Safety.emergencyActive s
      | _ => true
      end && disciplined (Safety.step s a) rest
  end.

Definition is_press (a : Safety.Action) : bool :=
  match a with Safety.Press => true | _ => false end.

(** Timer ids are fresh, every scheduled timer has 1 to 3 ticks left, and the
    counter shown is between 0 and 3. *)
Definition timers_ok (s : Safety.State) : Prop :=
  (forall id count, Safety.intervals s !! id = Some count ->
                    (id < Safety.nextTimerId s)%nat /\ (1 <= count <= 3)%Z) /\
  (0 <= Safety.countdown s <= 3)%Z.

(** Every scheduled timer is the one [countdownRef] names, and the button is
    held. *)
Definition referenced (s : Safety.State) : Prop :=
  forall id count, Safety.intervals s !! id = Some count ->
                   Safety.countdownRef s = Some id /\
                   Safety.panicPressed s = true.

(** What a run has cost so far: alerts recorded, alert calls awaited and
    timers scheduled. *)
Definition committed (s : Safety.State) : nat :=
  (length (EmergencyService.alertHistory (Safety.service s)) +
   length (Safety.awaited s) + size (Safety.intervals s))%nat.

(** ** Vocabulary for the KYC properties *)

(** The form as the screen would hand it to the service. *)
Definition submission_of (f : KYC.FormData) : KYC.KYCSubmissionData :=
  {| KYC.sub_name := KYC.name f; KYC.sub_dob := KYC.dob f;
     KYC.sub_nationality := Some (KYC.nationality f);
     KYC.sub_aadhaarNumber := Some (KYC.aadhaarNumber f);
     KYC.sub_passportNumber := Some (KYC.passportNumber f) |}.

(** A form that passes the required-fields test. *)
Definition complete_form : KYC.FormData :=
  {| KYC.name := "Asha"; KYC.dob := "1990-01-01";
     KYC.aadhaarNumber := "123412341234"; KYC.passportNumber := "";
     KYC.nationality := "India"; KYC.otp := "" |}.

(** What every reachable verification screen satisfies. *)
Definition otp_ok (s : KYC.Screen) : Prop :=
  ((KYC.otpIntervals s = ∅ /\ KYC.otpTimer s = 0%Z) \/
   (exists id, KYC.otpIntervals s = {[ id ]} /\
               (1 <= KYC.otpTimer s <= 60)%Z)) /\
  (KYC.currentStep s = 1%Z \/ KYC.currentStep s = 2%Z \/
   KYC.currentStep s = 3%Z) /\
  (KYC.currentStep s = 1%Z ->
   KYC.otpIntervals s = ∅ /\ KYC.requestId s = None) /\
  (KYC.currentStep s <> 1%Z -> KYC.requestId s <> None).


(** * Vocabulary of the properties *)

(** ** Distance *)

(** The haversine term [a] of two points given in degrees. *)
Definition hav (lat1 lon1 lat2 lon2 : R) : R :=
  Rsqr (sin ((lat2 - lat1) * PI / 180 / 2)) +
  cos (lat1 * PI / 180) * cos (lat2 * PI / 180) *
  Rsqr (sin ((lon2 - lon1) * PI / 180 / 2)).

(** The haversine distance as the spec words it: twice the radius times the
    arc sine of the square root of the haversine term. *)
Definition haversine_spec (a b : LocationData) : R :=
  2 * 6371000 *
  asin (sqrt (hav (latitude a) (longitude a) (latitude b) (longitude b))).

(** A bare fix at the given coordinates and time. *)
Section NearAntipodes.
Import PrimFloat Doubles.
Local Open Scope float_scope.

(** Two nearly antipodal points: 8 degrees north on the prime meridian, and
    8 degrees south on the 180th. *)
Definition north_8 : Position := {| latitude := 8; longitude := 0 |}.

Definition south_8_opposite : Position :=
  {| latitude := -8; longitude := 180 |}.

(** A [Math] object known only at the arguments that the distance between
    these two points passes to it: the sine and cosine of 8 degrees rounded
    to the nearest double, and the sine of [Math.PI / 2], which is 1.
    Everywhere else it answers NaN; so does its [atan2], which is only ever
    asked about a NaN argument here. *)
Definition tabulated_math : MathObject :=
  {| Math_sin := fun x =>
       if x =? 0x1.921fb54442d18p+0 then 1
       else if x =? -0x1.1df46a2529d39p-3 then -0x1.1d06c968d9e19p-3
       else nan;
     Math_cos := fun x =>
       if abs x =? 0x1.1df46a2529d39p-3 then 0x1.fb046a930947ap-1 else nan;
     Math_atan2 := fun y x => nan |}.

End NearAntipodes.

Definition fix_at (lat lon : R) (t : Z) : LocationData :=
  {| latitude := lat; longitude := lon; accuracy := None;
     timestamp := t; address := None |}.

(** ** Alerts *)

(** The alert [triggerPanicAlert] builds from a fix. *)
Definition sos_alert (env : EmergencyService.Env) (message : option string)
    (loc : LocationData) (w : EmergencyService.World)
  : EmergencyService.EmergencyAlert :=
  {| EmergencyService.id := EmergencyService.date_now env;
     EmergencyService.type := EmergencyService.sos;
     EmergencyService.message := EmergencyService.message_or_default message;
     EmergencyService.location :=
       {| EmergencyService.alert_latitude := latitude loc;
          EmergencyService.alert_longitude := longitude loc;
          EmergencyService.alert_address := address loc |};
     EmergencyService.alert_timestamp := EmergencyService.new_date env;
     EmergencyService.status := EmergencyService.sent;
     EmergencyService.contacts :=
       map EmergencyService.phone (EmergencyService.emergencyContacts w) |}.

(** ** Scenarios *)

Definition zone_centre : LocationService.Coords :=
  LocationService.mkCoords 25.5788 91.8933 None.

Definition platform_ok : LocationService.Platform :=
  LocationService.mkPlatform
    (Some LocationService.granted) (Some LocationService.granted)
    (Some zone_centre) (Some []) 1700000000000.

Definition platform_denied : LocationService.Platform :=
  LocationService.mkPlatform
    (Some LocationService.denied) (Some LocationService.denied)
    (Some zone_centre) (Some []) 1700000000000.

Definition a_user : EmergencyService.User :=
  EmergencyService.mkUser (Some "TID-NE-2024-001523"%string) "u1".

(** Every collaborator answers. *)
Definition env_all_ok : EmergencyService.Env :=
  EmergencyService.mkEnv true true platform_ok 1700000000000 1700000000000
    (Some (Some a_user)) (Some (Some "token"%string)).

(** The fix is obtained, but the storage behind the backend dispatch rejects
    and the notification dialog fails. *)
Definition env_dispatch_down : EmergencyService.Env :=
  EmergencyService.mkEnv true false platform_ok 1700000000000 1700000000000
    None None.

(** Location permission is refused. *)
Definition env_no_location : EmergencyService.Env :=
  EmergencyService.mkEnv true true platform_denied 1700000000000 1700000000000
    (Some (Some a_user)) (Some (Some "token"%string)).

(** The haptics module rejects. *)
Definition env_no_haptics : EmergencyService.Env :=
  EmergencyService.mkEnv false true platform_ok 1700000000000 1700000000000
    (Some (Some a_user)) (Some (Some "token"%string)).

(** The backend dispatch or the contact notification of a call failed. *)
Definition dispatch_failed (env : EmergencyService.Env) : bool :=
  match EmergencyService.stored_user env, EmergencyService.stored_token env with
  | Some _, Some _ => negb (EmergencyService.dialog_ok env)
  | _, _ => true
  end.

(** ** Geofence *)

Definition military_zone : EmergencyService.RestrictedArea :=
  EmergencyService.mkArea 25.5788 91.8933 1000 "Restricted Military Zone".

(** A fix at the exact centre of the military zone. *)
Definition at_centre : LocationData := fix_at 25.5788 91.8933 0.

(** The side effects of a geofence alert succeed during this check. *)
Definition alert_succeeds (env : EmergencyService.Env) : bool :=
  EmergencyService.haptics_ok env && EmergencyService.dialog_ok env.

(** The fix lies within the radius of some configured zone. *)
Definition inside_some_zone (location : LocationData) : bool :=
  existsb (EmergencyService.within location) EmergencyService.restrictedAreas.

(** ** Panic countdown *)

(** The mounted screen after one press and one tick: counting down at 2. *)
Definition counting_down_2 : Safety.State :=
  Safety.run (Safety.mounted EmergencyService.initial)
             [Safety.Press; Safety.Tick 1].

(** The state while the timer that a start from [s] schedules holds
    [count]. *)
Definition counting (s : Safety.State) (count : Z) : Safety.State :=
  {| Safety.emergencyActive := false;
     Safety.panicPressed := true;
     Safety.countdown := count;
     Safety.countdownRef := Some (Safety.nextTimerId s);
     Safety.intervals := <[ Safety.nextTimerId s := count ]> (Safety.intervals s);
     Safety.nextTimerId := S (Safety.nextTimerId s);
     Safety.awaited := Safety.awaited s;
     Safety.service :=
       Safety.log_event (EmergencyService.Haptic EmergencyService.ImpactHeavy)
                        (Safety.service s) |}.

(** The state once that timer has expired. *)
Definition expired (s : Safety.State) : Safety.State :=
  {| Safety.emergencyActive := true;
     Safety.panicPressed := false;
     Safety.countdown := 0;
     Safety.countdownRef := Some (Safety.nextTimerId s);
     Safety.intervals := delete (Safety.nextTimerId s) (Safety.intervals s);
     Safety.nextTimerId := S (Safety.nextTimerId s);
     Safety.awaited := Safety.awaited s ++ [Safety.panic_message];
     Safety.service :=
       Safety.log_event (EmergencyService.Haptic EmergencyService.ImpactHeavy)
                        (Safety.service s) |}.

(** * Properties *)

(** ** Great-circle distance and speed *)

Section GeoMath.
Local Open Scope R_scope.

Lemma Math_atan2_nonneg (y x : R) : 0 <= y -> 0 <= Math_atan2 y x.
Proof.
  intros Hy. unfold Math_atan2.
  destruct (Rlt_dec 0 x) as [Hx | Hx].
  - assert (Hq : 0 <= y / x).
    { apply Rmult_le_pos; [exact Hy | left; apply Rinv_0_lt_compat; exact Hx]. }
    destruct Hq as [Hq | Hq].
    + left. rewrite <- atan_0. apply atan_increasing. exact Hq.
    + rewrite <- Hq, atan_0. lra.
  - destruct (Rlt_dec x 0) as [Hx' | Hx'].
    + destruct (Rle_dec 0 y) as [_ | Hn]; [ | contradiction].
      pose proof (atan_bound (y / x)) as [Hlo _].
      pose proof PI_RGT_0. lra.
    + destruct (Rlt_dec 0 y) as [_ | _].
      * pose proof PI_RGT_0. lra.
      * destruct (Rlt_dec y 0) as [Hneg | _]; lra.
Qed.

Lemma Math_atan2_0_1 : Math_atan2 0 1 = 0.
Proof.
  unfold Math_atan2. destruct (Rlt_dec 0 1) as [_ | Hn]; [ | lra].
  replace (0 / 1) with 0 by field. apply atan_0.
Qed.

Lemma hav_sym (lat1 lon1 lat2 lon2 : R) :
  hav lat1 lon1 lat2 lon2 = hav lat2 lon2 lat1 lon1.
Proof.
  unfold hav.
  replace ((lat1 - lat2) * PI / 180 / 2) with (- ((lat2 - lat1) * PI / 180 / 2))
    by field.
  replace ((lon1 - lon2) * PI / 180 / 2) with (- ((lon2 - lon1) * PI / 180 / 2))
    by field.
  rewrite !sin_neg, <- !Rsqr_neg. ring.
Qed.

Lemma hav_same (lat lon : R) : hav lat lon lat lon = 0.
Proof.
  unfold hav.
  replace ((lat - lat) * PI / 180 / 2) with 0 by field.
  replace ((lon - lon) * PI / 180 / 2) with 0 by field.
  rewrite sin_0. unfold Rsqr. ring.
Qed.

(** The haversine term stays in the domain of both square roots. *)
Lemma hav_range (lat1 lon1 lat2 lon2 : R) :
  0 <= hav lat1 lon1 lat2 lon2 <= 1.
Proof.
  unfold hav.
  set (p1 := lat1 * PI / 180). set (p2 := lat2 * PI / 180).
  replace ((lat2 - lat1) * PI / 180 / 2) with ((p2 - p1) / 2)
    by (unfold p1, p2; field).
  set (h := (p2 - p1) / 2).
  set (t := Rsqr (sin ((lon2 - lon1) * PI / 180 / 2))).
  assert (Ht : 0 <= t <= 1).
  { unfold t. split; [apply Rle_0_sqr | ].
    pose proof (sin2_cos2 ((lon2 - lon1) * PI / 180 / 2)) as E.
    pose proof (Rle_0_sqr (cos ((lon2 - lon1) * PI / 180 / 2))). lra. }
  assert (Hs : 0 <= Rsqr (sin h) <= 1).
  { split; [apply Rle_0_sqr | ].
    pose proof (sin2_cos2 h) as E. pose proof (Rle_0_sqr (cos h)). lra. }
  assert (Hprod : cos p1 * cos p2 = (cos (p2 - p1) + cos (p2 + p1)) / 2).
  { rewrite cos_minus, cos_plus. field. }
  assert (Hdbl : cos (p2 - p1) = 1 - 2 * Rsqr (sin h)).
  { replace (p2 - p1) with (2 * h) by (unfold h; field).
    rewrite cos_2a_sin. unfold Rsqr. ring. }
  pose proof (COS_bound (p2 + p1)) as [Hc1 Hc2].
  rewrite Hprod, Hdbl.
  set (s := Rsqr (sin h)) in *. set (c := cos (p2 + p1)) in *.
  split; nra.
Qed.

Lemma calculateDistance_hav (a b : LocationData) :
  LocationService.calculateDistance a b =
  6371000 * (2 * Math_atan2
                   (sqrt (hav (latitude a) (longitude a) (latitude b) (longitude b)))
                   (sqrt (1 - hav (latitude a) (longitude a) (latitude b) (longitude b)))).
Proof.
  unfold LocationService.calculateDistance, hav, Rsqr. cbv zeta.
  do 3 f_equal; f_equal; ring.
Qed.

(** On its domain [atan2 (sqrt a) (sqrt (1 - a))] is the arc sine of
    [sqrt a]. *)
Lemma atan2_sqrt_asin (a : R) :
  0 <= a <= 1 -> Math_atan2 (sqrt a) (sqrt (1 - a)) = asin (sqrt a).
Proof.
  intros [H0 H1]. destruct (Req_dec a 1) as [-> | Hne].
  - replace (1 - 1) with 0 by ring. rewrite sqrt_0, sqrt_1, asin_1.
    unfold Math_atan2.
    destruct (Rlt_dec 0 0) as [F | _]; [lra | ].
    destruct (Rlt_dec 0 1) as [_ | F]; [reflexivity | lra].
  - assert (Hlt : a < 1) by lra.
    assert (Hpos : 0 < sqrt (1 - a)) by (apply sqrt_lt_R0; lra).
    assert (Hs1 : sqrt a < 1).
    { rewrite <- sqrt_1. apply sqrt_lt_1_alt. lra. }
    pose proof (sqrt_pos a) as Hs0.
    unfold Math_atan2. destruct (Rlt_dec 0 (sqrt (1 - a))) as [_ | F]; [ | lra].
    rewrite asin_atan by lra.
    do 3 f_equal. unfold Rsqr. rewrite sqrt_sqrt by lra. reflexivity.
Qed.

Lemma calculateDistance_nonneg (a b : LocationData) :
  0 <= LocationService.calculateDistance a b.
Proof.
  rewrite calculateDistance_hav.
  pose proof (Math_atan2_nonneg
                (sqrt (hav (latitude a) (longitude a) (latitude b) (longitude b)))
                (sqrt (1 - hav (latitude a) (longitude a) (latitude b) (longitude b)))
                (sqrt_pos _)).
  lra.
Qed.

Lemma calculateDistance_same (p : LocationData) :
  LocationService.calculateDistance p p = 0.
Proof.
  rewrite calculateDistance_hav, hav_same.
  replace (1 - 0) with 1 by ring.
  rewrite sqrt_0, sqrt_1, Math_atan2_0_1. ring.
Qed.

(** In exact arithmetic the formula of the code is right: over the real
    numbers the distance from a point to itself is 0, the distance is
    symmetric, it is never negative, and it is the haversine great-circle
    distance on a sphere of radius 6,371,000 m.  What the program computes on
    doubles differs from this where rounding takes the haversine term past 1
    (below). *)
Lemma distance_over_the_reals :
  (forall p, LocationService.calculateDistance p p = 0) /\
  (forall a b, LocationService.calculateDistance a b =
               LocationService.calculateDistance b a) /\
  (forall a b, 0 <= LocationService.calculateDistance a b) /\
  (forall a b, LocationService.calculateDistance a b = haversine_spec a b).
Proof.
  repeat split.
  - apply calculateDistance_same.
  - intros a b. rewrite !calculateDistance_hav.
    rewrite (hav_sym (latitude a)). reflexivity.
  - apply calculateDistance_nonneg.
  - intros a b. rewrite calculateDistance_hav. unfold haversine_spec.
    rewrite atan2_sqrt_asin by apply hav_range. ring.
Qed.

(** C9.  The speed between two fixes is the distance divided by the elapsed
    seconds, which are positive whenever the division happens; when the
    second fix is not later than the first the speed is 0, so no division by
    zero or by a negative time takes place. *)
Theorem speed_guard (a b : LocationData) :
  ((timestamp a < timestamp b)%Z ->
     0 < IZR (timestamp b - timestamp a) / 1000 /\
     LocationService.calculateSpeed a b =
       LocationService.calculateDistance a b /
       (IZR (timestamp b - timestamp a) / 1000)) /\
  ((timestamp b <= timestamp a)%Z -> LocationService.calculateSpeed a b = 0).
Proof.
  unfold LocationService.calculateSpeed. cbv zeta.
  set (dt := IZR (timestamp b - timestamp a)).
  split.
  - intros Hlt.
    assert (Hdt : 0 < dt) by (apply IZR_lt; lia).
    assert (Hsec : 0 < dt / 1000) by (apply Rdiv_lt_0_compat; lra).
    split; [exact Hsec | ].
    destruct (Rlt_dec 0 (dt / 1000)) as [_ | F]; [reflexivity | contradiction].
  - intros Hle.
    assert (Hdt : dt <= 0) by (apply IZR_le; lia).
    destruct (Rlt_dec 0 (dt / 1000)) as [F | _]; [ | reflexivity].
    exfalso. assert (dt / 1000 <= 0) by (unfold Rdiv; nra). lra.
Qed.

End GeoMath.

Section GeoDoubles.
Import PrimFloat Doubles.
Local Open Scope float_scope.

(** NaN compares unequal to every double. *)
Lemma nan_eqb (x : float) : (nan =? x) = false.
Proof. rewrite FloatAxioms.eqb_spec. reflexivity. Qed.

(** C8 (a defect of the code).  On doubles the distance algebra fails for
    nearly antipodal points.  Take 8 degrees north on the prime meridian and
    8 degrees south on the 180th, and a [Math] object whose sine and cosine
    return, at the four arguments this call passes, the doubles nearest to
    the exact values, and whose [atan2] is NaN on a NaN argument.  Then the
    haversine term is 1.0000000000000002, one unit in the last place above
    1; [Math.sqrt(1 - a)] is NaN, the distance is NaN, and so
    [distance >= 0] is false and [distance(a, b) == distance(b, a)] is false.
    Nothing in the code keeps the term within 0 and 1. *)
Theorem distance_nan_near_antipodes (Math : MathObject) :
  Math_sin Math (-0x1.1df46a2529d39p-3) = -0x1.1d06c968d9e19p-3 ->
  Math_cos Math 0x1.1df46a2529d39p-3 = 0x1.fb046a930947ap-1 ->
  Math_cos Math (-0x1.1df46a2529d39p-3) = 0x1.fb046a930947ap-1 ->
  Math_sin Math 0x1.921fb54442d18p+0 = 1 ->
  Math_atan2 Math 1 nan = nan ->
  haversine_term Math north_8 south_8_opposite = 0x1.0000000000001p+0 /\
  sqrt (1 - haversine_term Math north_8 south_8_opposite) = nan /\
  calculateDistance Math north_8 south_8_opposite = nan /\
  js_ge (calculateDistance Math north_8 south_8_opposite) 0 = false /\
  js_eq (calculateDistance Math north_8 south_8_opposite)
        (calculateDistance Math south_8_opposite north_8) = false.
Proof.
  intros Hsin Hcos Hcos' Hsin1 Hatan.
  assert (Ha : haversine_term Math north_8 south_8_opposite =
               0x1.0000000000001p+0).
  { cbv -[Math_sin Math_cos Math_atan2].
    rewrite Hsin, Hcos, Hcos', Hsin1. reflexivity. }
  assert (Hd : calculateDistance Math north_8 south_8_opposite = nan).
  { unfold calculateDistance. cbv zeta. rewrite Ha.
    cbv -[Math_sin Math_cos Math_atan2] in Hatan |- *.
    rewrite Hatan. reflexivity. }
  split; [exact Ha | ].
  split; [rewrite Ha; vm_compute; reflexivity | ].
  split; [exact Hd | ].
  split; [unfold js_ge; rewrite Hd; vm_compute; reflexivity | ].
  unfold js_eq. rewrite Hd. apply nan_eqb.
Qed.

Lemma distance_nan_near_antipodes_witness :
  calculateDistance tabulated_math north_8 south_8_opposite = nan.
Proof.
  exact (proj1 (proj2 (proj2
           (distance_nan_near_antipodes tabulated_math
              eq_refl eq_refl eq_refl eq_refl eq_refl)))).
Defined.

End GeoDoubles.

(** Two fixes a second apart, and the same two in the opposite order. *)
Lemma speed_guard_witness :
  (0 < IZR (timestamp (fix_at 0 0 1000) - timestamp (fix_at 0 0 0)) / 1000 /\
   LocationService.calculateSpeed (fix_at 0 0 0) (fix_at 0 0 1000) =
     LocationService.calculateDistance (fix_at 0 0 0) (fix_at 0 0 1000) /
     (IZR (timestamp (fix_at 0 0 1000) - timestamp (fix_at 0 0 0)) / 1000))%R /\
  LocationService.calculateSpeed (fix_at 0 0 1000) (fix_at 0 0 0) = 0%R.
Proof.
  split.
  - apply (proj1 (speed_guard (fix_at 0 0 0) (fix_at 0 0 1000))).
    simpl. lia.
  - apply (proj2 (speed_guard (fix_at 0 0 1000) (fix_at 0 0 0))).
    simpl. lia.
Defined.

(** ** The bounded location history *)

Section History.
Import LocationService.

Lemma slice_last_length {A} (k : nat) (l : list A) :
  length (slice_last k l) = Nat.min (length l) k.
Proof. unfold slice_last. rewrite length_skipn. lia. Qed.

Lemma slice_last_short {A} (k : nat) (l : list A) :
  (length l <= k)%nat -> slice_last k l = l.
Proof.
  intros H. unfold slice_last.
  replace (length l - k)%nat with 0%nat by lia. reflexivity.
Qed.

(** Trimming early does not change what a later trim keeps. *)
Lemma slice_last_app {A} (k : nat) (l m : list A) :
  slice_last k (slice_last k l ++ m) = slice_last k (l ++ m).
Proof.
  destruct (Nat.le_gt_cases (length l) k) as [Hle | Hgt].
  - rewrite (slice_last_short k l Hle). reflexivity.
  - unfold slice_last.
    rewrite !length_app, length_skipn.
    replace (length l - (length l - k) + length m - k)%nat with (length m)
      by lia.
    replace (length l + length m - k)%nat
      with (length m + (length l - k))%nat by lia.
    rewrite <- skipn_skipn, (skipn_app (length l - k) l m).
    replace (length l - k - length l)%nat with 0%nat by lia.
    reflexivity.
Qed.

Lemma watchCallback_history (coords : Coords) (now : Z) (t : Tracker) :
  locationHistory (fst (watchCallback coords now t)) =
  slice_last 50 (locationHistory t ++ [fix_of coords now]).
Proof.
  unfold watchCallback. cbn [fst locationHistory].
  destruct (Nat.ltb_spec 50 (length (locationHistory t ++ [fix_of coords now])))
    as [Hgt | Hle].
  - reflexivity.
  - symmetry. apply slice_last_short. exact Hle.
Qed.

Lemma deliver_history (fixes : list (Coords * Z)) (t : Tracker) :
  (length (locationHistory t) <= 50)%nat ->
  locationHistory (deliver fixes t) =
  slice_last 50 (locationHistory t ++
                 map (fun f => fix_of (fst f) (snd f)) fixes).
Proof.
  revert t. induction fixes as [ | f fixes IH]; intros t Ht.
  - cbn. rewrite app_nil_r. symmetry. apply slice_last_short. exact Ht.
  - cbn [deliver fold_left map]. fold (deliver fixes (fst (watchCallback (fst f) (snd f) t))).
    rewrite IH.
    + rewrite watchCallback_history, slice_last_app, <- app_assoc. reflexivity.
    + rewrite watchCallback_history, slice_last_length. lia.
Qed.

(** C6.  After every fix delivered to the tracking callback the history holds
    at most 50 entries, whatever it held before; a stream of fixes delivered
    to a fresh tracker leaves exactly its most recent 50 (all of them when
    there are fewer), oldest first, so of 100 fixes the first 50 are gone. *)
Theorem bounded_location_history :
  (forall coords now t,
     (length (locationHistory (fst (watchCallback coords now t))) <= 50)%nat) /\
  (forall fixes,
     locationHistory (deliver fixes initial) =
     skipn (length fixes - 50) (map (fun f => fix_of (fst f) (snd f)) fixes)) /\
  (forall fixes,
     length (getLocationHistory (deliver fixes initial)) =
     Nat.min (length fixes) 50).
Proof.
  assert (Hall : forall fixes,
     locationHistory (deliver fixes initial) =
     skipn (length fixes - 50) (map (fun f => fix_of (fst f) (snd f)) fixes)).
  { intros fixes. rewrite deliver_history by (cbn; lia).
    cbn [initial locationHistory app]. unfold slice_last.
    rewrite length_map. reflexivity. }
  repeat split.
  - intros coords now t. rewrite watchCallback_history, slice_last_length. lia.
  - exact Hall.
  - intros fixes. unfold getLocationHistory.
    rewrite Hall, length_skipn, length_map. lia.
Qed.

End History.

(** ** Panic alerts *)

Section PanicAlert.
Import EmergencyService.

Lemma sendEmergencyAlert_returns (env : Env) (alert : EmergencyAlert) (w : World) :
  fst (sendEmergencyAlert env alert w) = Returned tt /\
  alertHistory (snd (sendEmergencyAlert env alert w)) = alertHistory w /\
  emergencyContacts (snd (sendEmergencyAlert env alert w)) = emergencyContacts w.
Proof.
  unfold sendEmergencyAlert, try_catch, bind, await.
  destruct (stored_user env) as [[u | ] | ];
    destruct (stored_token env) as [[[ | c tok] | ] | ];
    cbn; repeat split.
Qed.

Lemma notifyEmergencyContacts_returns (env : Env) (alert : EmergencyAlert) (w : World) :
  fst (notifyEmergencyContacts env alert w) = Returned tt /\
  alertHistory (snd (notifyEmergencyContacts env alert w)) = alertHistory w /\
  emergencyContacts (snd (notifyEmergencyContacts env alert w)) = emergencyContacts w.
Proof.
  unfold notifyEmergencyContacts, try_catch, bind, get_contacts, Alert_alert.
  destruct (dialog_ok env); cbn; repeat split.
Qed.

(** The call never rejects: every path ends in [return true] or
    [return false]. *)
Lemma triggerPanicAlert_total (env : Env) (message : option string) (w : World) :
  exists b, fst (triggerPanicAlert env message w) = Returned b.
Proof.
  unfold triggerPanicAlert, try_catch, bind at 1, notificationAsync.
  destruct (haptics_ok env); cbn.
  - destruct (LocationService.getCurrentLocation (platform env)) as [loc | ].
    + unfold bind, get_contacts, unshift. cbn.
      match goal with |- context [sendEmergencyAlert ?e ?a ?w0] =>
        pose proof (sendEmergencyAlert_returns e a w0) as [Hs _];
        destruct (sendEmergencyAlert e a w0) as [o1 w1] end.
      cbn in Hs. subst o1.
      match goal with |- context [notifyEmergencyContacts ?e ?a ?w0] =>
        pose proof (notifyEmergencyContacts_returns e a w0) as [Hn _];
        destruct (notifyEmergencyContacts e a w0) as [o2 w2] end.
      cbn in Hn. subst o2. cbn. eauto.
    + unfold bind, Alert_alert. destruct (dialog_ok env); cbn; eauto.
  - eauto.
Qed.

(** C4.  Whatever the state of the service, when the location fetch yields no
    fix the panic alert call returns failure ([false]) to its caller and the
    alert history is unchanged: no alert is created. *)
Theorem trigger_without_location (env : Env) (message : option string) (w : World) :
  LocationService.getCurrentLocation (platform env) = None ->
  fst (triggerPanicAlert env message w) = Returned false /\
  getAlertHistory (snd (triggerPanicAlert env message w)) = getAlertHistory w.
Proof.
  intros Hloc.
  unfold triggerPanicAlert, try_catch, bind, notificationAsync, Alert_alert,
    getAlertHistory.
  rewrite Hloc.
  destruct (haptics_ok env), (dialog_ok env); cbn; split; reflexivity.
Qed.

(** With a fix, the alert is recorded first and nothing after that can undo
    it or change the result. *)
Lemma triggerPanicAlert_with_location (env : Env) (message : option string)
    (w : World) (loc : LocationData) :
  haptics_ok env = true ->
  LocationService.getCurrentLocation (platform env) = Some loc ->
  fst (triggerPanicAlert env message w) = Returned true /\
  alertHistory (snd (triggerPanicAlert env message w)) =
    sos_alert env message loc w :: alertHistory w.
Proof.
  intros Hh Hloc.
  unfold triggerPanicAlert, try_catch, bind at 1, notificationAsync.
  rewrite Hh, Hloc. cbn.
  unfold bind, get_contacts, unshift. cbn.
  fold (sos_alert env message loc w).
  match goal with |- context [sendEmergencyAlert ?e ?a ?w0] =>
    pose proof (sendEmergencyAlert_returns e a w0) as (Hs & Hsh & _);
    destruct (sendEmergencyAlert e a w0) as [o1 w1] end.
  cbn in Hs, Hsh. subst o1.
  match goal with |- context [notifyEmergencyContacts ?e ?a ?w0] =>
    pose proof (notifyEmergencyContacts_returns e a w0) as (Hn & Hnh & _);
    destruct (notifyEmergencyContacts e a w0) as [o2 w2] end.
  cbn in Hn, Hnh. subst o2. cbn. split; [reflexivity | congruence].
Qed.

End PanicAlert.

Section Durability.
Import EmergencyService.

Lemma trigger_without_location_witness :
  fst (triggerPanicAlert env_no_location None initial) = Returned false /\
  getAlertHistory (snd (triggerPanicAlert env_no_location None initial)) =
    getAlertHistory initial.
Proof.
  apply (trigger_without_location env_no_location None initial).
  reflexivity.
Defined.

(** A failing dispatch or notification leaves an error line on the
    console. *)
Lemma dispatch_failure_logged (env : Env) (message : option string) (w : World)
    (loc : LocationData) :
  haptics_ok env = true ->
  LocationService.getCurrentLocation (platform env) = Some loc ->
  dispatch_failed env = true ->
  exists text,
    In (ConsoleError text) (events (snd (triggerPanicAlert env message w))).
Proof.
  intros Hh Hloc Hfail.
  unfold triggerPanicAlert, try_catch, bind at 1, notificationAsync.
  rewrite Hh, Hloc. cbn.
  unfold bind, get_contacts, unshift, sendEmergencyAlert,
    notifyEmergencyContacts, try_catch, bind, await, get_contacts, Alert_alert.
  unfold dispatch_failed in Hfail.
  destruct (stored_user env) as [[u | ] | ];
    destruct (stored_token env) as [[[ | c tok] | ] | ];
    destruct (dialog_ok env); cbn in *; try discriminate;
    eexists; rewrite !in_app_iff; cbn; eauto 8.
Qed.

(** C5 as the code has it.  Once the fix is obtained the new alert is
    recorded at the head of the history and stays there, and the call returns
    [true], whether or not the backend dispatch or the contact notification
    fails; such a failure only reaches the console: the result is the same
    [true] as that of a call in which nothing failed. *)
Theorem local_durability (env : Env) (message : option string) (w : World)
    (loc : LocationData) :
  haptics_ok env = true ->
  LocationService.getCurrentLocation (platform env) = Some loc ->
  fst (triggerPanicAlert env message w) = Returned true /\
  head (getAlertHistory (snd (triggerPanicAlert env message w))) =
    Some (sos_alert env message loc w) /\
  tail (getAlertHistory (snd (triggerPanicAlert env message w))) =
    getAlertHistory w /\
  (forall env' : Env,
     haptics_ok env' = true ->
     LocationService.getCurrentLocation (platform env') <> None ->
     fst (triggerPanicAlert env' message w) =
     fst (triggerPanicAlert env message w)) /\
  (dispatch_failed env = true ->
   exists text,
     In (ConsoleError text) (events (snd (triggerPanicAlert env message w)))).
Proof.
  intros Hh Hloc.
  destruct (triggerPanicAlert_with_location env message w loc Hh Hloc)
    as [Hr Hhist].
  unfold getAlertHistory. rewrite Hr, Hhist. cbn. repeat split.
  - intros env' Hh' Hloc'.
    destruct (LocationService.getCurrentLocation (platform env')) as [loc' | ] eqn:E;
      [ | contradiction].
    apply (triggerPanicAlert_with_location env' message w loc' Hh' E).
  - apply (dispatch_failure_logged env message w loc Hh Hloc).
Qed.

Lemma local_durability_witness :
  fst (triggerPanicAlert env_dispatch_down None initial) = Returned true /\
  head (getAlertHistory (snd (triggerPanicAlert env_dispatch_down None initial))) =
    Some (sos_alert env_dispatch_down None
            (fix_at 25.5788 91.8933 1700000000000) initial) /\
  tail (getAlertHistory (snd (triggerPanicAlert env_dispatch_down None initial))) =
    getAlertHistory initial /\
  (forall env' : Env,
     haptics_ok env' = true ->
     LocationService.getCurrentLocation (platform env') <> None ->
     fst (triggerPanicAlert env' None initial) =
     fst (triggerPanicAlert env_dispatch_down None initial)) /\
  (dispatch_failed env_dispatch_down = true ->
   exists text,
     In (ConsoleError text)
        (events (snd (triggerPanicAlert env_dispatch_down None initial)))).
Proof.
  apply (local_durability env_dispatch_down None initial
           (fix_at 25.5788 91.8933 1700000000000)); reflexivity.
Defined.

(** The partial-failure flag of the spec does not exist: a call whose dispatch
    and notification both fail hands its caller the very value a fully
    successful call does. *)
Lemma partial_failure_not_reported :
  dispatch_failed env_dispatch_down = true /\
  dispatch_failed env_all_ok = false /\
  fst (triggerPanicAlert env_dispatch_down None initial) =
  fst (triggerPanicAlert env_all_ok None initial).
Proof.
  split; [reflexivity | split; [reflexivity | ] ].
  rewrite (proj1 (triggerPanicAlert_with_location env_dispatch_down None initial
                    (fix_at 25.5788 91.8933 1700000000000) eq_refl eq_refl)).
  rewrite (proj1 (triggerPanicAlert_with_location env_all_ok None initial
                    (fix_at 25.5788 91.8933 1700000000000) eq_refl eq_refl)).
  reflexivity.
Qed.

End Durability.

(** ** Geofence check *)

Section Geofence.
Import EmergencyService.

Lemma distance_to_LocationService (location : LocationData) (area : RestrictedArea) :
  distance_to location area =
  LocationService.calculateDistance location (fix_at (lat area) (lng area) 0).
Proof. reflexivity. Qed.

Lemma within_spec (location : LocationData) (area : RestrictedArea) :
  within location area = true <-> (distance_to location area <= radius area)%R.
Proof.
  unfold within. destruct (Rle_dec (distance_to location area) (radius area));
    split; intros; try discriminate; try contradiction; auto.
Qed.

Lemma at_centre_within : within at_centre military_zone = true.
Proof.
  apply within_spec. rewrite distance_to_LocationService.
  change (fix_at (lat military_zone) (lng military_zone) 0) with at_centre.
  rewrite (calculateDistance_same at_centre).
  change (radius military_zone) with 1000%R. lra.
Qed.

Lemma check_areas_find (env : Env) (location : LocationData)
    (areas : list RestrictedArea) (w : World) :
  check_areas env location areas w =
  match find (within location) areas with
  | Some area =>
      (triggerGeofenceAlert env (area_name area) location ;;; ret true) w
  | None => (Returned false, w)
  end.
Proof.
  induction areas as [ | area rest IH]; cbn [check_areas find].
  - reflexivity.
  - destruct (within location area); [reflexivity | exact IH].
Qed.

Lemma geofence_alerts_app (w : World) (es : list Event) :
  length (List.filter is_geofence_alert (events w ++ es)) =
  (geofence_alerts w + length (List.filter is_geofence_alert es))%nat.
Proof. unfold geofence_alerts. rewrite List.filter_app, length_app. reflexivity. Qed.

Lemma checkGeofenceViolationIn_cases (areas : list RestrictedArea) (env : Env)
    (location : LocationData) (w : World) :
  match find (within location) areas with
  | Some area =>
      if haptics_ok env && dialog_ok env then
        fst (checkGeofenceViolationIn areas env location w) = Returned true /\
        events (snd (checkGeofenceViolationIn areas env location w)) =
          events w ++ [ Haptic NotificationWarning;
                        Dialog "Geofence Alert" (geofence_body (area_name area)) ]
      else
        fst (checkGeofenceViolationIn areas env location w) = Returned false /\
        geofence_alerts (snd (checkGeofenceViolationIn areas env location w)) =
          geofence_alerts w
  | None =>
      fst (checkGeofenceViolationIn areas env location w) = Returned false /\
      snd (checkGeofenceViolationIn areas env location w) = w
  end.
Proof.
  unfold checkGeofenceViolationIn, try_catch.
  rewrite check_areas_find.
  destruct (find (within location) areas) as [area | ].
  - unfold triggerGeofenceAlert, bind, notificationAsync, Alert_alert.
    destruct (haptics_ok env), (dialog_ok env); cbn.
    + split; [reflexivity | ]. rewrite <- app_assoc. reflexivity.
    + split; [reflexivity | ].
      unfold geofence_alerts at 1. cbn. rewrite <- app_assoc.
      rewrite geofence_alerts_app. cbn. apply Nat.add_0_r.
    + split; [reflexivity | ].
      unfold geofence_alerts at 1. cbn.
      rewrite geofence_alerts_app. cbn. apply Nat.add_0_r.
    + split; [reflexivity | ].
      unfold geofence_alerts at 1. cbn.
      rewrite geofence_alerts_app. cbn. apply Nat.add_0_r.
  - split; reflexivity.
Qed.

(** C10.  One check walks the zones in declaration order.  At the first zone
    that contains the fix it raises one alert, for that zone, and returns
    [true] at once: no later zone is looked at.  When no zone contains the
    fix, or the alert's haptic pulse or dialog fails, it shows no alert and
    returns [false]. *)
Theorem one_alert_per_check (areas : list RestrictedArea) (env : Env)
    (location : LocationData) (w : World) :
  match find (within location) areas with
  | Some area =>
      if haptics_ok env && dialog_ok env then
        fst (checkGeofenceViolationIn areas env location w) = Returned true /\
        events (snd (checkGeofenceViolationIn areas env location w)) =
          events w ++ [ Haptic NotificationWarning;
                        Dialog "Geofence Alert" (geofence_body (area_name area)) ]
      else
        fst (checkGeofenceViolationIn areas env location w) = Returned false /\
        geofence_alerts (snd (checkGeofenceViolationIn areas env location w)) =
          geofence_alerts w
  | None =>
      fst (checkGeofenceViolationIn areas env location w) = Returned false /\
      snd (checkGeofenceViolationIn areas env location w) = w
  end.
Proof. apply checkGeofenceViolationIn_cases. Qed.

Lemma existsb_find {A} (f : A -> bool) (l : list A) :
  existsb f l = match find f l with Some _ => true | None => false end.
Proof.
  induction l as [ | x l IH]; cbn; [reflexivity | ].
  destruct (f x); [reflexivity | exact IH].
Qed.

(** What one check returns and how many alerts it adds. *)
Lemma checkGeofenceViolation_result (env : Env) (location : LocationData) (w : World) :
  fst (checkGeofenceViolation env location w) =
    Returned (inside_some_zone location && alert_succeeds env) /\
  geofence_alerts (snd (checkGeofenceViolation env location w)) =
    (geofence_alerts w +
     if inside_some_zone location && alert_succeeds env then 1 else 0)%nat.
Proof.
  pose proof (checkGeofenceViolationIn_cases restrictedAreas env location w) as H.
  unfold inside_some_zone, alert_succeeds, checkGeofenceViolation.
  rewrite existsb_find.
  destruct (find (within location) restrictedAreas) as [area | ].
  - destruct (haptics_ok env && dialog_ok env); destruct H as [Hr He]; cbn.
    + split; [exact Hr | ].
      unfold geofence_alerts at 1. rewrite He, geofence_alerts_app. reflexivity.
    + split; [exact Hr | ]. rewrite He. symmetry. apply Nat.add_0_r.
  - destruct H as [Hr Hw]. cbn. split; [exact Hr | ].
    rewrite Hw. symmetry. apply Nat.add_0_r.
Qed.

Lemma inside_some_zone_spec (location : LocationData) :
  inside_some_zone location = true <->
  exists area, In area restrictedAreas /\
               (distance_to location area <= radius area)%R.
Proof.
  unfold inside_some_zone. rewrite existsb_exists.
  split; intros (area & Hin & Hw); exists area; split; auto;
    apply within_spec; exact Hw.
Qed.

Lemma at_centre_inside : inside_some_zone at_centre = true.
Proof.
  apply inside_some_zone_spec. exists military_zone. split.
  - left. reflexivity.
  - apply within_spec, at_centre_within.
Qed.

(** C7 as the code has it.  A check reports a violation exactly when the
    haversine distance from the fix to the centre of some configured zone is
    at most that zone's radius and the alert it raises for that zone (haptic
    pulse, dialog) does not fail.  So, with a working alert, a fix at the
    exact centre of the zone of radius 1000 is reported as violated; a fix
    farther than the radius from every zone is reported as not violated. *)
Theorem geofence_violation_predicate :
  (forall env location w,
     fst (checkGeofenceViolation env location w) = Returned true <->
     alert_succeeds env = true /\
     exists area, In area restrictedAreas /\
                  (distance_to location area <= radius area)%R) /\
  (forall env location w,
     fst (checkGeofenceViolation env location w) = Returned true \/
     fst (checkGeofenceViolation env location w) = Returned false) /\
  (forall env w,
     alert_succeeds env = true ->
     radius military_zone = 1000%R /\
     fst (checkGeofenceViolation env at_centre w) = Returned true) /\
  (forall env location w,
     (forall area, In area restrictedAreas ->
                   (radius area < distance_to location area)%R) ->
     fst (checkGeofenceViolation env location w) = Returned false).
Proof.
  split; [ | split; [ | split] ].
  - intros env location w.
    rewrite (proj1 (checkGeofenceViolation_result env location w)).
    rewrite <- inside_some_zone_spec.
    destruct (inside_some_zone location), (alert_succeeds env); cbn;
      split; try (intros [? ?]); try intros ?; try discriminate; auto.
  - intros env location w.
    rewrite (proj1 (checkGeofenceViolation_result env location w)).
    destruct (inside_some_zone location && alert_succeeds env); auto.
  - intros env w Hok. split; [reflexivity | ].
    rewrite (proj1 (checkGeofenceViolation_result env at_centre w)).
    rewrite at_centre_inside, Hok. reflexivity.
  - intros env location w Hfar.
    rewrite (proj1 (checkGeofenceViolation_result env location w)).
    destruct (inside_some_zone location) eqn:E; [ | reflexivity].
    apply inside_some_zone_spec in E. destruct E as (area & Hin & Hle).
    specialize (Hfar area Hin). lra.
Qed.

(** With every collaborator answering, the fix at the centre is reported. *)
Lemma geofence_violation_predicate_witness :
  radius military_zone = 1000%R /\
  fst (checkGeofenceViolation env_all_ok at_centre initial) = Returned true.
Proof.
  apply (proj1 (proj2 (proj2 geofence_violation_predicate)) env_all_ok initial).
  reflexivity.
Defined.

(** Without that proviso the statement fails: the fix is at the centre of the
    zone, the haptics module rejects, and the check reports no violation. *)
Lemma violation_unreported_when_alert_fails :
  In military_zone restrictedAreas /\
  (distance_to at_centre military_zone <= radius military_zone)%R /\
  fst (checkGeofenceViolation env_no_haptics at_centre initial) = Returned false.
Proof.
  split; [left; reflexivity | split].
  - apply within_spec, at_centre_within.
  - rewrite (proj1 (checkGeofenceViolation_result env_no_haptics at_centre initial)).
    rewrite at_centre_inside. reflexivity.
Qed.

Lemma check_fixes_world (fixes : list (Env * LocationData))
    (acc : list (Outcome bool) * World) :
  snd (fold_left (fun acc f =>
                    let r := checkGeofenceViolation (fst f) (snd f) (snd acc) in
                    (fst acc ++ [fst r], snd r)) fixes acc) =
  fold_left (fun w f => snd (checkGeofenceViolation (fst f) (snd f) w))
            fixes (snd acc).
Proof.
  revert acc. induction fixes as [ | f fixes IH]; intros acc; cbn [fold_left].
  - reflexivity.
  - rewrite IH. reflexivity.
Qed.

Lemma check_fixes_alerts (fixes : list (Env * LocationData)) (w : World) :
  geofence_alerts (snd (check_fixes fixes w)) =
  (geofence_alerts w +
   length (List.filter
             (fun f => inside_some_zone (snd f) && alert_succeeds (fst f))
             fixes))%nat.
Proof.
  unfold check_fixes. rewrite check_fixes_world. cbn [snd].
  revert w. induction fixes as [ | f fixes IH]; intros w; cbn [fold_left List.filter].
  - cbn. symmetry. apply Nat.add_0_r.
  - rewrite IH.
    rewrite (proj2 (checkGeofenceViolation_result (fst f) (snd f) w)).
    destruct (inside_some_zone (snd f) && alert_succeeds (fst f)); cbn [length].
    + rewrite <- Nat.add_assoc. reflexivity.
    + rewrite Nat.add_0_r. reflexivity.
Qed.

(** C1 as the code has it.  Nothing suppresses a repeated alert: over any
    sequence of fixes, every fix that lies inside a restricted zone raises
    its own geofence alert (when its haptic pulse and dialog succeed) and a
    fix outside every zone raises none.  Two consecutive fixes inside the
    same zone therefore produce two alerts, and a fix outside followed by a
    fix back inside produces one more. *)
Theorem no_deduplication (fixes : list (Env * LocationData)) (w : World) :
  geofence_alerts (snd (check_fixes fixes w)) =
  (geofence_alerts w +
   length (List.filter
             (fun f => inside_some_zone (snd f) && alert_succeeds (fst f))
             fixes))%nat.
Proof. apply check_fixes_alerts. Qed.

(** Two consecutive fixes at the centre of the military zone raise two
    alerts, not one. *)
Lemma repeated_alert_inside_zone :
  (distance_to at_centre military_zone <= radius military_zone)%R /\
  geofence_alerts
    (snd (check_fixes [(env_all_ok, at_centre); (env_all_ok, at_centre)]
                      initial)) = 2%nat /\
  geofence_alerts
    (snd (check_fixes [(env_all_ok, at_centre); (env_all_ok, at_centre)]
                      initial)) <> 1%nat.
Proof.
  assert (H : geofence_alerts
    (snd (check_fixes [(env_all_ok, at_centre); (env_all_ok, at_centre)]
                      initial)) = 2%nat).
  { rewrite check_fixes_alerts. cbn [List.filter fst snd].
    rewrite at_centre_inside. reflexivity. }
  split; [apply within_spec, at_centre_within | split; [exact H | ] ].
  rewrite H. discriminate.
Qed.

End Geofence.

(** ** The panic countdown *)

Section Panic.
Import EmergencyService Safety.

Lemma panicState_Idle (s : State) :
  panicState s = Idle <-> emergencyActive s = false /\ panicPressed s = false.
Proof.
  unfold panicState.
  destruct (emergencyActive s), (panicPressed s); split;
    try intros [? ?]; try intros ?; try discriminate; auto.
Qed.

Lemma press_when_idle (s : State) :
  panicState s = Idle -> onPress s = counting s 3.
Proof.
  intros Hidle. apply panicState_Idle in Hidle as [Hact _].
  unfold onPress, startPanicSequence, counting.
  rewrite Hact. reflexivity.
Qed.

Lemma tick_counting (s : State) (count : Z) :
  (1 < count)%Z ->
  tick (nextTimerId s) (counting s count) = counting s (count - 1).
Proof.
  intros Hc. unfold tick, counting. cbn [intervals].
  rewrite lookup_insert_eq.
  destruct (Z.leb_spec (count - 1) 0) as [Hle | _]; [lia | ].
  cbn. rewrite insert_insert_eq. reflexivity.
Qed.

Lemma tick_expires (s : State) :
  tick (nextTimerId s) (counting s 1) = expired s.
Proof.
  unfold tick, counting, expired, triggerEmergency, clearTimer.
  cbn [intervals]. rewrite lookup_insert_eq. cbn.
  rewrite insert_insert_eq, delete_insert_eq. reflexivity.
Qed.

Lemma cancel_while_counting (s : State) (count : Z) :
  cancelPanicSequence (counting s count) =
  {| emergencyActive := false; panicPressed := false; countdown := 0;
     countdownRef := None;
     intervals := delete (nextTimerId s) (intervals s);
     nextTimerId := S (nextTimerId s); awaited := awaited s;
     service := log_event (Haptic ImpactHeavy) (service s) |}.
Proof.
  unfold cancelPanicSequence, counting, clearTimer. cbn.
  rewrite delete_insert_eq. reflexivity.
Qed.

(** After the press and [k < 3] ticks the counter shows [3 - k]. *)
Lemma run_ticks (s : State) (k : nat) :
  panicState s = Idle -> (k < 3)%nat ->
  run s (Press :: repeat (Tick (nextTimerId s)) k) =
  counting s (3 - Z.of_nat k).
Proof.
  intros Hidle Hk.
  assert (Hp : run s [Press] = counting s 3) by (apply press_when_idle; assumption).
  destruct k as [ | [ | [ | k] ] ]; [ | | | lia].
  - exact Hp.
  - change (tick (nextTimerId s) (run s [Press]) = counting s (3 - 1)).
    rewrite Hp. apply (tick_counting s 3). lia.
  - change (tick (nextTimerId s) (tick (nextTimerId s) (run s [Press])) =
            counting s (3 - 2)).
    rewrite Hp, (tick_counting s 3) by lia. apply (tick_counting s 2). lia.
Qed.

Lemma run_expiry (s : State) :
  panicState s = Idle ->
  run s [Press; Tick (nextTimerId s); Tick (nextTimerId s); Tick (nextTimerId s)] =
  expired s.
Proof.
  intros Hidle.
  change (run s [Press; Tick (nextTimerId s); Tick (nextTimerId s); Tick (nextTimerId s)])
    with (tick (nextTimerId s)
            (run s (Press :: repeat (Tick (nextTimerId s)) 2))).
  rewrite run_ticks by (assumption || lia). apply tick_expires.
Qed.

Lemma settle_expired (s : State) (env : Env) (loc : LocationData) :
  awaited s = [] ->
  haptics_ok env = true ->
  LocationService.getCurrentLocation (platform env) = Some loc ->
  panicState (alertSettled env (expired s)) = Active /\
  awaited (alertSettled env (expired s)) = [] /\
  sos_alerts (alertSettled env (expired s)) =
    sos_alert env panic_message loc (service (expired s)) :: sos_alerts s.
Proof.
  intros Hnone Hh Hloc.
  unfold alertSettled. cbn [awaited expired]. rewrite Hnone.
  cbn [app]. cbv zeta.
  destruct (triggerPanicAlert_with_location env panic_message
              (service (expired s)) loc Hh Hloc) as [Hr Hhist].
  rewrite Hr. unfold sos_alerts, panicState. cbn [emergencyActive service awaited].
  rewrite Hhist. repeat split.
Qed.

(** C2.  From Idle: the press sets the counter to 3 and schedules an interval
    timer; each tick of it decrements the counter; after the third tick the
    state is Active, the timer is cleared and exactly one call of
    [triggerPanicAlert] has been made, which records exactly one sos alert
    once it obtains the fix.  A cancel after fewer than three ticks returns
    the state to Idle, clears the timer and its reference, and triggers no
    alert. *)
Theorem panic_countdown_lifecycle (s : State) :
  panicState s = Idle ->
  panicState (run s [Press]) = CountingDown 3 /\
  intervals (run s [Press]) !! nextTimerId s = Some 3%Z /\
  panicState (run s [Press; Tick (nextTimerId s)]) = CountingDown 2 /\
  panicState (run s [Press; Tick (nextTimerId s); Tick (nextTimerId s)]) =
    CountingDown 1 /\
  panicState (run s [Press; Tick (nextTimerId s); Tick (nextTimerId s);
                     Tick (nextTimerId s)]) = Active /\
  intervals (run s [Press; Tick (nextTimerId s); Tick (nextTimerId s);
                    Tick (nextTimerId s)]) !! nextTimerId s = None /\
  awaited (run s [Press; Tick (nextTimerId s); Tick (nextTimerId s);
                  Tick (nextTimerId s)]) = awaited s ++ [panic_message] /\
  alertHistory (service (run s [Press; Tick (nextTimerId s);
                                Tick (nextTimerId s); Tick (nextTimerId s)])) =
    alertHistory (service s) /\
  (forall env loc,
     awaited s = [] ->
     haptics_ok env = true ->
     LocationService.getCurrentLocation (platform env) = Some loc ->
     panicState (run s [Press; Tick (nextTimerId s); Tick (nextTimerId s);
                        Tick (nextTimerId s); AlertSettled env]) = Active /\
     awaited (run s [Press; Tick (nextTimerId s); Tick (nextTimerId s);
                     Tick (nextTimerId s); AlertSettled env]) = [] /\
     exists alert,
       type alert = sos /\
       sos_alerts (run s [Press; Tick (nextTimerId s); Tick (nextTimerId s);
                          Tick (nextTimerId s); AlertSettled env]) =
       alert :: sos_alerts s) /\
  (forall k, (k < 3)%nat ->
     panicState (cancelPanicSequence
                   (run s (Press :: repeat (Tick (nextTimerId s)) k))) = Idle /\
     intervals (cancelPanicSequence
                  (run s (Press :: repeat (Tick (nextTimerId s)) k)))
       !! nextTimerId s = None /\
     countdownRef (cancelPanicSequence
                     (run s (Press :: repeat (Tick (nextTimerId s)) k))) = None /\
     awaited (cancelPanicSequence
                (run s (Press :: repeat (Tick (nextTimerId s)) k))) =
       awaited s /\
     alertHistory (service (cancelPanicSequence
                     (run s (Press :: repeat (Tick (nextTimerId s)) k)))) =
       alertHistory (service s)).
Proof.
  intros Hidle.
  pose proof (run_ticks s 0 Hidle ltac:(lia)) as H0.
  pose proof (run_ticks s 1 Hidle ltac:(lia)) as H1.
  pose proof (run_ticks s 2 Hidle ltac:(lia)) as H2.
  pose proof (run_expiry s Hidle) as H3.
  cbn [repeat] in H0, H1, H2.
  rewrite H0, H1, H2, H3.
  repeat match goal with |- _ /\ _ => split end; try reflexivity.
  - cbn [intervals counting]. apply lookup_insert_eq.
  - cbn [intervals expired]. apply lookup_delete_eq.
  - intros env loc Hwait Hh Hloc.
    change (run s [Press; Tick (nextTimerId s); Tick (nextTimerId s);
                   Tick (nextTimerId s); AlertSettled env])
      with (alertSettled env
              (run s [Press; Tick (nextTimerId s); Tick (nextTimerId s);
                      Tick (nextTimerId s)])).
    rewrite H3.
    destruct (settle_expired s env loc Hwait Hh Hloc) as (Ha & Hw & Hs).
    split; [exact Ha | split; [exact Hw | ] ].
    eexists. split; [ | exact Hs]. reflexivity.
  - intros k Hk. rewrite (run_ticks s k Hidle Hk), cancel_while_counting.
    cbn [panicState emergencyActive panicPressed intervals countdownRef
         awaited service].
    repeat split. apply lookup_delete_eq.
Qed.

Lemma panic_countdown_lifecycle_witness :
  panicState (mounted initial) = Idle /\
  panicState (run (mounted initial) [Press; Tick 1; Tick 1; Tick 1]) = Active /\
  awaited (run (mounted initial) [Press; Tick 1; Tick 1; Tick 1]) =
    [panic_message] /\
  panicState (cancelPanicSequence (run (mounted initial) [Press; Tick 1])) =
    Idle.
Proof.
  pose proof (panic_countdown_lifecycle (mounted initial) eq_refl)
    as (_ & _ & _ & _ & Hactive & _ & Hcalls & _ & _ & Hcancel).
  split; [reflexivity | ].
  split; [exact Hactive | ].
  split; [exact Hcalls | ].
  exact (proj1 (Hcancel 1%nat ltac:(lia))).
Defined.

(** When the awaited alert call fails (here: no location), the screen leaves
    Active again and no alert is recorded. *)
Lemma expiry_without_location :
  panicState (run (mounted initial)
                  [Press; Tick 1; Tick 1; Tick 1; AlertSettled env_no_location])
    = Idle /\
  sos_alerts (run (mounted initial)
                  [Press; Tick 1; Tick 1; Tick 1; AlertSettled env_no_location])
    = [].
Proof. split; reflexivity. Qed.

(** C3 (a defect of the code).  [startPanicSequence] tests nothing before it
    starts, and the button calls it on every press while no emergency is
    active, so also during a countdown.  On the mounted screen: a press, one
    tick (the counter shows 2), and a second press.  The second press is not
    a no-op: the counter is back at 3, a second interval timer is scheduled
    and [countdownRef] names it, while the first timer stays scheduled and is
    named by nothing.  The exit paths ([cancelPanicSequence],
    [cancelEmergency], the unmount cleanup) clear the timer the reference
    names, so releasing the button now stops the second timer only: the
    screen shows Idle, timer 1 is still scheduled, and its two remaining
    ticks take the Idle screen to Active with a call of [triggerPanicAlert]
    awaited.  Unmounting instead of releasing leaves timer 1 scheduled as
    well. *)
Theorem second_start_orphans_timer :
  panicState (run (mounted initial) [Press; Tick 1]) = CountingDown 2 /\
  panicState (run (mounted initial) [Press; Tick 1; Press]) = CountingDown 3 /\
  countdownRef (run (mounted initial) [Press; Tick 1; Press]) = Some 2%nat /\
  intervals (run (mounted initial) [Press; Tick 1; Press]) !! 1%nat =
    Some 2%Z /\
  intervals (run (mounted initial) [Press; Tick 1; Press]) !! 2%nat =
    Some 3%Z /\
  panicState (run (mounted initial) [Press; Tick 1; Press; PressOut]) = Idle /\
  countdownRef (run (mounted initial) [Press; Tick 1; Press; PressOut]) =
    None /\
  intervals (run (mounted initial) [Press; Tick 1; Press; PressOut]) !! 2%nat =
    None /\
  intervals (run (mounted initial) [Press; Tick 1; Press; PressOut]) !! 1%nat =
    Some 2%Z /\
  panicState (run (mounted initial)
                  [Press; Tick 1; Press; PressOut; Tick 1]) = Idle /\
  panicState (run (mounted initial)
                  [Press; Tick 1; Press; PressOut; Tick 1; Tick 1]) = Active /\
  awaited (run (mounted initial)
               [Press; Tick 1; Press; PressOut; Tick 1; Tick 1]) =
    [panic_message] /\
  intervals (unmount (run (mounted initial) [Press; Tick 1; Press])) !! 1%nat =
    Some 2%Z.
Proof.
  repeat match goal with |- _ /\ _ => split end; vm_compute; reflexivity.
Qed.

(** A second start while counting down at 2 is not a no-op: the counter is
    back at 3, two timers are scheduled, and the first one is still among
    them although the reference now names the second. *)
Lemma second_start_restarts :
  panicState counting_down_2 = CountingDown 2 /\
  onPress counting_down_2 = startPanicSequence counting_down_2 /\
  panicState (startPanicSequence counting_down_2) = CountingDown 3 /\
  size (intervals counting_down_2) = 1%nat /\
  size (intervals (startPanicSequence counting_down_2)) = 2%nat /\
  intervals (startPanicSequence counting_down_2) !! 1%nat = Some 2%Z /\
  countdownRef (startPanicSequence counting_down_2) = Some 2%nat /\
  startPanicSequence counting_down_2 <> counting_down_2.
Proof.
  repeat match goal with |- _ /\ _ => split end;
    try (vm_compute; reflexivity).
  intros Heq. apply (f_equal countdown) in Heq. vm_compute in Heq.
  discriminate.
Qed.

(** Both timers then run to expiry: two alert calls are made, and cancelling
    through the reference stops only the second timer. *)
Lemma orphaned_timer_fires :
  length (awaited (run counting_down_2
                       [Press; Tick 1; Tick 1; Tick 2; Tick 2; Tick 2])) = 2%nat /\
  intervals (cancelPanicSequence (startPanicSequence counting_down_2)) !! 1%nat =
    Some 2%Z.
Proof. split; vm_compute; reflexivity. Qed.

End Panic.

(** * Further properties of the code *)

(** ** The one-shot location fetch, location.ts *)

Section FetchFacts.
Import LocationService.

(** X5.  When the one-shot fetch yields a fix.  It does exactly when the
    foreground permission is granted, the background request is answered
    (granted or not) and the platform delivers a position; the fix then
    carries the platform's coordinates and the time of the call.  What the
    reverse geocoder does never decides whether there is a fix: a failing or
    empty geocoding only leaves the address unset. *)
Theorem getCurrentLocation_outcome (pf : Platform) :
  (answered (getCurrentLocation pf) = true <->
   foregroundPermission pf = Some granted /\
   backgroundPermission pf <> None /\
   currentPosition pf <> None) /\
  (forall loc,
     getCurrentLocation pf = Some loc ->
     exists coords,
       currentPosition pf = Some coords /\
       latitude loc = coords_latitude coords /\
       longitude loc = coords_longitude coords /\
       timestamp loc = clock pf) /\
  (forall geocode,
     answered (getCurrentLocation
                 (mkPlatform (foregroundPermission pf) (backgroundPermission pf)
                    (currentPosition pf) geocode (clock pf))) =
     answered (getCurrentLocation pf)) /\
  (forall loc,
     getCurrentLocation pf = Some loc ->
     reverseGeocode pf = None \/ reverseGeocode pf = Some [] ->
     address loc = None).
Proof.
  unfold getCurrentLocation, requestPermissions.
  destruct (foregroundPermission pf) as [[ | | ] | ];
    destruct (backgroundPermission pf) as [bg | ];
    destruct (currentPosition pf) as [coords | ]; cbn;
    (split; [split; [intros H; try discriminate H; repeat split; discriminate
                    | intros (Hf & Hb & Hp); congruence] | ]);
    (split; [intros loc Hl; try discriminate Hl;
             injection Hl as <-; eexists; repeat split | ]);
    (split; [intros geocode; reflexivity | ]);
    intros loc Hl Hg; try discriminate Hl;
    injection Hl as <-; cbn; destruct Hg as [-> | ->]; reflexivity.
Qed.

End FetchFacts.

(** ** Starting and stopping the tracking, location.ts *)

Section TrackingFacts.
Import LocationService Tracking.

Lemma performAll_invariant (P : Device -> Prop) (d : Device) (calls : list Call) :
  P d -> (forall d c, P d -> P (perform d c)) -> P (performAll d calls).
Proof.
  intros Hd Hstep. revert d Hd.
  induction calls as [ | c calls IH]; intros d Hd; cbn; [exact Hd | ].
  apply IH, Hstep, Hd.
Qed.

Lemma consistent_fresh : consistent fresh.
Proof. repeat split. cbn. lia. Qed.

Lemma consistent_perform (d : Device) (c : Call) :
  consistent d -> consistent (perform d c).
Proof.
  intros Hc. pose proof Hc as (Hsub & Htr & Hlen).
  destruct c as [a | a | id coords now]; cbn [perform].
  - unfold startTracking.
    destruct (requestPermissions (permissions a)); cbn [negb snd]; [ | exact Hc].
    destruct (isTracking (tracker d)) eqn:Et; cbn [snd]; [exact Hc | ].
    destruct (watch_ok a); cbn [negb snd]; [ | exact Hc].
    assert (Hnone : watchId (tracker d) = None).
    { destruct (watchId (tracker d)); [ | reflexivity].
      symmetry in Htr.
      rewrite bool_decide_eq_false in Htr. exfalso. apply Htr. discriminate. }
    assert (Hempty : subscriptions d = ∅).
    { rewrite Hsub. unfold held. rewrite Hnone. reflexivity. }
    destruct (storage_ok a); cbn [snd]; unfold consistent, held; cbn;
      rewrite Hempty; repeat split;
      solve [apply union_empty_r_L | exact Hlen].
  - unfold stopTracking.
    destruct (watchId (tracker d)) as [id | ] eqn:Ew.
    + destruct (remove_ok a); [ | exact Hc].
      assert (Hs : subscriptions d = {[ id ]}).
      { rewrite Hsub. unfold held. rewrite Ew. reflexivity. }
      destruct (storage_ok a); unfold consistent, held; cbn;
        rewrite Hs; repeat split;
        solve [apply difference_diag_L | exact Hlen].
    + assert (Hs : subscriptions d = ∅).
      { rewrite Hsub. unfold held. rewrite Ew. reflexivity. }
      destruct (storage_ok a); unfold consistent, held; cbn;
        rewrite Ew, Hs; repeat split; exact Hlen.
  - unfold platformFix.
    destruct ((1 <=? id)%nat && (id <? nextSubscription d)%nat); [ | exact Hc].
    unfold consistent, held. cbn [set_tracker tracker subscriptions].
    split; [exact Hsub | split; [exact Htr | ] ].
    rewrite watchCallback_history, slice_last_length. lia.
Qed.

(** X6.  Whatever sequence of start, stop and platform fixes a fresh service
    goes through: at most one position subscription is live, it is the one
    the service holds, tracking is reported active exactly while it is held,
    and the history has at most 50 entries. *)
Theorem tracking_invariant (calls : list Call) :
  subscriptions (performAll fresh calls) = held (performAll fresh calls) /\
  (size (subscriptions (performAll fresh calls)) <= 1)%nat /\
  (isCurrentlyTracking (performAll fresh calls) = true <->
   watchId (tracker (performAll fresh calls)) <> None) /\
  (length (getLocationHistory (tracker (performAll fresh calls))) <= 50)%nat.
Proof.
  pose proof (performAll_invariant consistent fresh calls consistent_fresh
                consistent_perform) as (Hsub & Htr & Hlen).
  split; [exact Hsub | ]. split; [ | split; [ | exact Hlen] ].
  - rewrite Hsub. unfold held.
    destruct (watchId (tracker (performAll fresh calls))).
    + rewrite size_singleton. lia.
    + rewrite size_empty. lia.
  - unfold isCurrentlyTracking. rewrite Htr. apply bool_decide_eq_true.
Qed.

(** What [startTracking] returns and whether tracking is on afterwards.
    The result is [true] exactly when permission is granted and either
    tracking was already on or both the subscription and the storage write
    succeeded; tracking is on afterwards exactly when it was on before or
    permission and the subscription succeeded.  A failing storage write
    therefore gives [false] although tracking has started. *)
Lemma startTracking_outcome (a : Answers) (d : Device) :
  fst (startTracking a d) =
    requestPermissions (permissions a) &&
    (isTracking (tracker d) || (watch_ok a && storage_ok a)) /\
  isCurrentlyTracking (snd (startTracking a d)) =
    isTracking (tracker d) ||
    (requestPermissions (permissions a) && watch_ok a) /\
  locationHistory (tracker (snd (startTracking a d))) =
    locationHistory (tracker d).
Proof.
  unfold startTracking, isCurrentlyTracking.
  destruct (requestPermissions (permissions a)), (isTracking (tracker d)) eqn:E,
    (watch_ok a), (storage_ok a); cbn; rewrite ?E; repeat split.
Qed.

(** X7.  Starting is idempotent: once a start has returned [true], a further
    start changes nothing on the device (no second subscription, same
    storage) and, with permission still granted, returns [true] again. *)
Theorem startTracking_idempotent (a a' : Answers) (d : Device) :
  fst (startTracking a d) = true ->
  requestPermissions (permissions a') = true ->
  startTracking a' (snd (startTracking a d)) = (true, snd (startTracking a d)).
Proof.
  intros Hok Hperm.
  assert (Hon : isTracking (tracker (snd (startTracking a d))) = true).
  { revert Hok. unfold startTracking.
    destruct (requestPermissions (permissions a)); cbn [negb]; [ | discriminate].
    destruct (isTracking (tracker d)) eqn:E; [intros _; exact E | ].
    destruct (watch_ok a); cbn [negb]; [ | discriminate].
    destruct (storage_ok a); [reflexivity | discriminate]. }
  unfold startTracking at 1. rewrite Hperm, Hon. reflexivity.
Qed.

Lemma stopTracking_stopped (a : Answers) (d : Device) :
  consistent d -> remove_ok a = true ->
  isTracking (tracker (stopTracking a d)) = false /\
  watchId (tracker (stopTracking a d)) = None /\
  subscriptions (stopTracking a d) = ∅ /\
  locationHistory (tracker (stopTracking a d)) = locationHistory (tracker d).
Proof.
  intros (Hsub & _ & _) Hrm. unfold stopTracking. rewrite Hrm.
  unfold held in Hsub.
  destruct (watchId (tracker d)) as [id | ] eqn:Ew;
    destruct (storage_ok a); cbn; rewrite ?Ew, Hsub; repeat split;
    apply difference_diag_L.
Qed.

Lemma stopTracking_twice (a : Answers) (d : Device) :
  remove_ok a = true ->
  stopTracking a (stopTracking a d) = stopTracking a d.
Proof.
  intros Hrm. unfold stopTracking. rewrite Hrm.
  destruct (watchId (tracker d)) as [id | ] eqn:Ew;
    destruct (storage_ok a) eqn:Es; cbn; rewrite ?Ew, ?Es; cbn;
    unfold setItem, set_tracker; cbn; rewrite ?insert_insert_eq; reflexivity.
Qed.

(** X8.  Stopping a service in any reachable state, when the subscription
    can be removed: tracking is off and no subscription is left; the recorded
    history is kept as it was, not cleared; and a second stop changes nothing
    more. *)
Theorem stopTracking_effect (calls : list Call) (a : Answers) :
  remove_ok a = true ->
  isCurrentlyTracking (stopTracking a (performAll fresh calls)) = false /\
  subscriptions (stopTracking a (performAll fresh calls)) = ∅ /\
  getLocationHistory (tracker (stopTracking a (performAll fresh calls))) =
    getLocationHistory (tracker (performAll fresh calls)) /\
  stopTracking a (stopTracking a (performAll fresh calls)) =
    stopTracking a (performAll fresh calls).
Proof.
  intros Hrm.
  pose proof (performAll_invariant consistent fresh calls consistent_fresh
                consistent_perform) as Hc.
  destruct (stopTracking_stopped a _ Hc Hrm) as (Hoff & _ & Hnone & Hhist).
  unfold isCurrentlyTracking, getLocationHistory.
  split; [exact Hoff | split; [exact Hnone | split; [exact Hhist | ] ] ].
  apply stopTracking_twice, Hrm.
Qed.

Lemma stopTracking_effect_witness :
  isCurrentlyTracking
    (stopTracking granted_answers (performAll fresh [Start granted_answers]))
  = false.
Proof.
  apply (stopTracking_effect [Start granted_answers] granted_answers).
  reflexivity.
Defined.

(** The callback itself is not switched off by a stop: a fix that the
    platform still hands to it afterwards is recorded like any other. *)
Lemma late_fix_is_recorded (coords : Coords) (now : Z) :
  isCurrentlyTracking
    (performAll fresh [Start granted_answers; Stop granted_answers;
                       Fix 1 coords now]) = false /\
  length (getLocationHistory
            (tracker (performAll fresh [Start granted_answers;
                                        Stop granted_answers;
                                        Fix 1 coords now]))) = 1%nat.
Proof. split; reflexivity. Qed.

Lemma stored_preference_perform (d : Device) (c : Call) :
  storage_answers c = true ->
  stored_preference d = isTracking (tracker d) ->
  stored_preference (perform d c) = isTracking (tracker (perform d c)).
Proof.
  intros Hans Hq. destruct c as [a | a | id coords now]; cbn [perform];
    cbn [storage_answers] in Hans.
  - unfold startTracking. rewrite Hans.
    destruct (requestPermissions (permissions a)); cbn [negb snd]; [ | exact Hq].
    destruct (isTracking (tracker d)) eqn:Et; cbn [snd]; [rewrite Et; exact Hq | ].
    destruct (watch_ok a); cbn [negb snd]; [ | rewrite Et; exact Hq].
    unfold stored_preference, setItem. cbn [storage tracker isTracking].
    rewrite lookup_insert_eq. reflexivity.
  - unfold stopTracking. rewrite Hans.
    destruct (watchId (tracker d)) as [id | ].
    + destruct (remove_ok a); [ | exact Hq].
      unfold stored_preference, setItem, set_tracker.
      cbn [storage tracker isTracking]. rewrite lookup_insert_eq. reflexivity.
    + unfold stored_preference, setItem, set_tracker.
      cbn [storage tracker isTracking]. rewrite lookup_insert_eq. reflexivity.
  - unfold platformFix.
    destruct ((1 <=? id)%nat && (id <? nextSubscription d)%nat); exact Hq.
Qed.

Lemma stored_preference_performAll (d : Device) (calls : list Call) :
  forallb storage_answers calls = true ->
  stored_preference d = isTracking (tracker d) ->
  stored_preference (performAll d calls) =
  isTracking (tracker (performAll d calls)).
Proof.
  revert d. induction calls as [ | c calls IH]; intros d Hall Hd; [exact Hd | ].
  cbn [forallb] in Hall. apply andb_prop in Hall as [Hc Hrest].
  cbn. apply (IH _ Hrest). apply stored_preference_perform; assumption.
Qed.

Lemma stored_preference_get (a : Answers) (d : Device) :
  storage_ok a = true ->
  getStoredTrackingPreference a d = stored_preference d.
Proof.
  intros Ha. unfold getStoredTrackingPreference. rewrite Ha. reflexivity.
Qed.

(** X9.  The stored tracking preference follows the service from the first
    call that writes it, whatever the storage held before (the storage
    outlives the service object, so it may hold the preference of an earlier
    session).  On any device: once a stop has gone through, or a start has
    switched tracking on and returned [true], and as long as the storage
    accesses of the calls that follow answer, [getStoredTrackingPreference]
    returns what [isCurrentlyTracking] returns. *)
Theorem stored_preference_agrees
    (d : Device) (a : Answers) (calls : list Call) (a' : Answers) :
  storage_ok a = true ->
  forallb storage_answers calls = true ->
  storage_ok a' = true ->
  (remove_ok a = true \/ watchId (tracker d) = None ->
   getStoredTrackingPreference a' (performAll (stopTracking a d) calls) =
   isCurrentlyTracking (performAll (stopTracking a d) calls)) /\
  (isTracking (tracker d) = false ->
   fst (startTracking a d) = true ->
   getStoredTrackingPreference a' (performAll (snd (startTracking a d)) calls) =
   isCurrentlyTracking (performAll (snd (startTracking a d)) calls)).
Proof.
  intros Ha Hall Ha'. unfold isCurrentlyTracking. split.
  - intros Hstop. rewrite stored_preference_get by exact Ha'.
    apply stored_preference_performAll; [exact Hall | ].
    unfold stopTracking. rewrite Ha.
    destruct (watchId (tracker d)) as [id | ] eqn:Ew.
    + destruct Hstop as [Hrm | Hnone]; [ | discriminate].
      rewrite Hrm. unfold stored_preference, setItem, set_tracker.
      cbn [storage tracker isTracking]. rewrite lookup_insert_eq. reflexivity.
    + unfold stored_preference, setItem, set_tracker.
      cbn [storage tracker isTracking]. rewrite lookup_insert_eq. reflexivity.
  - intros Hoff Hstarted. rewrite stored_preference_get by exact Ha'.
    apply stored_preference_performAll; [exact Hall | ].
    revert Hstarted. unfold startTracking. rewrite Hoff, Ha.
    destruct (requestPermissions (permissions a)); cbn [negb fst snd];
      [ | discriminate].
    destruct (watch_ok a); cbn [negb fst snd]; [ | discriminate].
    intros _. unfold stored_preference, setItem.
    cbn [storage tracker isTracking]. rewrite lookup_insert_eq. reflexivity.
Qed.

(** A new service over a storage that still holds [true]: before any call
    the two disagree; after a stop, and over a further start, they agree. *)
Lemma stored_preference_agrees_witness :
  getStoredTrackingPreference granted_answers restarted = true /\
  isCurrentlyTracking restarted = false /\
  getStoredTrackingPreference granted_answers
    (performAll (stopTracking granted_answers restarted)
                [Start granted_answers]) =
  isCurrentlyTracking
    (performAll (stopTracking granted_answers restarted)
                [Start granted_answers]).
Proof.
  split; [reflexivity | split; [reflexivity | ] ].
  exact (proj1 (stored_preference_agrees restarted granted_answers
                  [Start granted_answers] granted_answers
                  eq_refl eq_refl eq_refl)
               (or_introl eq_refl)).
Defined.

(** When the storage write of a start fails, the two part ways: the call
    returns [false] and nothing is stored, yet tracking is on. *)
Lemma start_with_storage_down :
  fst (startTracking storage_down fresh) = false /\
  isCurrentlyTracking (snd (startTracking storage_down fresh)) = true /\
  getStoredTrackingPreference granted_answers
    (snd (startTracking storage_down fresh)) = false.
Proof. repeat split. Qed.

Lemma startTracking_idempotent_witness :
  startTracking granted_answers (snd (startTracking granted_answers fresh)) =
  (true, snd (startTracking granted_answers fresh)).
Proof.
  apply (startTracking_idempotent granted_answers granted_answers fresh);
    reflexivity.
Defined.

End TrackingFacts.

(** ** Contacts, incidents and the alert history, emergency.ts *)

Section ServiceFacts.
Import EmergencyService EmergencyOps.

Lemma triggerPanicAlert_cases (env : Env) (message : option string) (w : World) :
  fst (triggerPanicAlert env message w) =
    Returned (haptics_ok env &&
              bool_decide (LocationService.getCurrentLocation (platform env) <> None)) /\
  getAlertHistory (snd (triggerPanicAlert env message w)) =
    match LocationService.getCurrentLocation (platform env) with
    | Some loc =>
        if haptics_ok env
        then sos_alert env message loc w :: getAlertHistory w
        else getAlertHistory w
    | None => getAlertHistory w
    end /\
  emergencyContacts (snd (triggerPanicAlert env message w)) =
    emergencyContacts w.
Proof.
  destruct (haptics_ok env) eqn:Hh;
    destruct (LocationService.getCurrentLocation (platform env)) as [loc | ] eqn:Hloc.
  - destruct (triggerPanicAlert_with_location env message w loc Hh Hloc)
      as [Hr Hhist].
    unfold getAlertHistory. rewrite Hr, Hhist. repeat split.
    unfold triggerPanicAlert, try_catch, bind at 1, notificationAsync.
    rewrite Hh, Hloc. cbn. unfold bind, get_contacts, unshift. cbn.
    match goal with |- context [sendEmergencyAlert ?e ?a ?w0] =>
      pose proof (sendEmergencyAlert_returns e a w0) as (Hs & _ & Hsc);
      destruct (sendEmergencyAlert e a w0) as [o1 w1] end.
    cbn in Hs, Hsc. subst o1.
    match goal with |- context [notifyEmergencyContacts ?e ?a ?w0] =>
      pose proof (notifyEmergencyContacts_returns e a w0) as (Hn & _ & Hnc);
      destruct (notifyEmergencyContacts e a w0) as [o2 w2] end.
    cbn in Hn, Hnc. subst o2. cbn. congruence.
  - unfold triggerPanicAlert, try_catch, bind, notificationAsync, Alert_alert,
      getAlertHistory.
    rewrite Hh, Hloc. destruct (dialog_ok env); cbn; repeat split.
  - unfold triggerPanicAlert, try_catch, bind, notificationAsync, getAlertHistory.
    rewrite Hh. cbn. repeat split.
  - unfold triggerPanicAlert, try_catch, bind, notificationAsync, getAlertHistory.
    rewrite Hh. cbn. repeat split.
Qed.

(** X10.  What a panic alert call returns and records.  It returns [true]
    exactly when the haptic pulse succeeded and a fix was obtained; then the
    history is the new sos alert in front of the old history.  Otherwise it
    returns [false] and the history is unchanged.  It never rejects and
    never changes the contacts. *)
Theorem triggerPanicAlert_outcome (env : Env) (message : option string) (w : World) :
  fst (triggerPanicAlert env message w) =
    Returned (haptics_ok env &&
              bool_decide (LocationService.getCurrentLocation (platform env) <> None)) /\
  getAlertHistory (snd (triggerPanicAlert env message w)) =
    match LocationService.getCurrentLocation (platform env) with
    | Some loc =>
        if haptics_ok env
        then sos_alert env message loc w :: getAlertHistory w
        else getAlertHistory w
    | None => getAlertHistory w
    end /\
  emergencyContacts (snd (triggerPanicAlert env message w)) =
    emergencyContacts w.
Proof. apply triggerPanicAlert_cases. Qed.

Lemma filter_other_phone_id (p : string) (cs : list EmergencyContact) :
  (forall c, In c cs -> phone c <> p) -> List.filter (other_phone p) cs = cs.
Proof.
  induction cs as [ | c cs IH]; intros Hall; cbn; [reflexivity | ].
  unfold other_phone at 1.
  destruct (String.eqb_spec (phone c) p) as [E | _].
  - exfalso. apply (Hall c); [left; reflexivity | exact E].
  - cbn. f_equal. apply IH. intros c' Hin. apply Hall. right. exact Hin.
Qed.

(** X11.  Removing a contact by phone number: afterwards the list holds
    exactly the contacts with another number, in their old order (every
    contact with that number is gone, not only the first); removing a number
    nobody has changes nothing; the list is changed even when the storage
    write fails and the call rejects. *)
Theorem removeEmergencyContact_effect (write_ok : bool) (p : string) (w : World) :
  (forall c, In c (getEmergencyContacts (snd (removeEmergencyContact write_ok p w)))
             <-> In c (getEmergencyContacts w) /\ phone c <> p) /\
  getEmergencyContacts (snd (removeEmergencyContact write_ok p w)) =
    List.filter (other_phone p) (getEmergencyContacts w) /\
  ((forall c, In c (getEmergencyContacts w) -> phone c <> p) ->
   getEmergencyContacts (snd (removeEmergencyContact write_ok p w)) =
   getEmergencyContacts w) /\
  fst (removeEmergencyContact write_ok p w) =
    (if write_ok then Returned tt else Thrown).
Proof.
  assert (Hc : getEmergencyContacts (snd (removeEmergencyContact write_ok p w)) =
               List.filter (other_phone p) (getEmergencyContacts w)).
  { unfold removeEmergencyContact, bind, get_contacts, set_contacts, setJsonItem.
    destruct write_ok; reflexivity. }
  split; [ | split; [exact Hc | split] ].
  - intros c. rewrite Hc, List.filter_In. unfold other_phone.
    destruct (String.eqb_spec (phone c) p); cbn; intuition congruence.
  - intros Hall. rewrite Hc. apply filter_other_phone_id, Hall.
  - unfold removeEmergencyContact, bind, get_contacts, set_contacts, setJsonItem.
    destruct write_ok; reflexivity.
Qed.

(** X12.  Adding a contact and removing it again by its number gives back
    the list without every contact of that number: the original list when
    the number was new, and a shorter one when an earlier contact shared
    it. *)
Theorem add_then_remove_contact (ok1 ok2 : bool) (c : EmergencyContact) (w : World) :
  getEmergencyContacts
    (snd (removeEmergencyContact ok2 (phone c)
            (snd (addEmergencyContact ok1 c w)))) =
    List.filter (other_phone (phone c)) (getEmergencyContacts w) /\
  ((forall c', In c' (getEmergencyContacts w) -> phone c' <> phone c) ->
   getEmergencyContacts
     (snd (removeEmergencyContact ok2 (phone c)
             (snd (addEmergencyContact ok1 c w)))) =
   getEmergencyContacts w).
Proof.
  assert (H : getEmergencyContacts
    (snd (removeEmergencyContact ok2 (phone c)
            (snd (addEmergencyContact ok1 c w)))) =
    List.filter (other_phone (phone c)) (getEmergencyContacts w)).
  { unfold removeEmergencyContact, addEmergencyContact, bind, get_contacts,
      set_contacts, setJsonItem, getEmergencyContacts.
    destruct ok1, ok2; cbn; rewrite List.filter_app; cbn;
      unfold other_phone at 2; rewrite String.eqb_refl; cbn;
      apply app_nil_r. }
  split; [exact H | ].
  intros Hnew. rewrite H. apply filter_other_phone_id, Hnew.
Qed.

(** X13.  An alert lists the phone numbers of the contacts at the moment it
    is triggered: after a contact has been added, the next alert names the
    old numbers followed by the new one. *)
Theorem alert_names_added_contact (ok : bool) (c : EmergencyContact)
    (env : Env) (message : option string) (w : World) (loc : LocationData) :
  haptics_ok env = true ->
  LocationService.getCurrentLocation (platform env) = Some loc ->
  exists alert,
    head (getAlertHistory
            (snd (triggerPanicAlert env message
                    (snd (addEmergencyContact ok c w))))) = Some alert /\
    contacts alert = map phone (getEmergencyContacts w) ++ [phone c].
Proof.
  intros Hh Hloc.
  destruct (triggerPanicAlert_with_location env message
              (snd (addEmergencyContact ok c w)) loc Hh Hloc) as [_ Hhist].
  unfold getAlertHistory. rewrite Hhist. eexists. split; [reflexivity | ].
  unfold sos_alert, addEmergencyContact, bind, get_contacts, set_contacts,
    setJsonItem, getEmergencyContacts.
  destruct ok; cbn; apply map_app.
Qed.

Lemma alert_names_added_contact_witness :
  exists alert,
    head (getAlertHistory
            (snd (triggerPanicAlert env_all_ok None
                    (snd (addEmergencyContact true
                            (mkContact "Asha" "9876543210" "Sister" family)
                            initial)))))
      = Some alert /\
    contacts alert =
      map phone (getEmergencyContacts initial) ++
      [phone (mkContact "Asha" "9876543210" "Sister" family)].
Proof.
  apply (alert_names_added_contact true
           (mkContact "Asha" "9876543210" "Sister" family)
           env_all_ok None initial (fix_at 25.5788 91.8933 1700000000000));
    reflexivity.
Defined.

Lemma reportIncident_cases (env : Env) (type description : string)
    (location : option LocationData) (w : World) :
  fst (reportIncident env type description location w) =
    Returned ((answered location ||
               answered (LocationService.getCurrentLocation (platform env))) &&
              answered (stored_user env) && dialog_ok env) /\
  (forall given,
     location = Some given ->
     fst (reportIncident env type description location w) =
       Returned (answered (stored_user env) && dialog_ok env)) /\
  getAlertHistory (snd (reportIncident env type description location w)) =
    getAlertHistory w /\
  getEmergencyContacts (snd (reportIncident env type description location w)) =
    getEmergencyContacts w.
Proof.
  unfold reportIncident, try_catch, bind, await, Alert_alert, getAlertHistory,
    getEmergencyContacts.
  destruct location as [given | ];
    [ | destruct (LocationService.getCurrentLocation (platform env)) as [loc | ] ];
    destruct (stored_user env) as [u | ]; destruct (dialog_ok env); cbn;
    repeat split; intros; try discriminate; reflexivity.
Qed.

(** X14.  An incident report succeeds exactly when a location is at hand
    (given by the caller, or else fetched), the stored user can be read and
    the confirmation dialog shows; with a location given, the location
    service is not consulted at all.  In no case does it reject, or touch
    the alert history or the contacts. *)
Theorem reportIncident_outcome (env : Env) (type description : string)
    (location : option LocationData) (w : World) :
  fst (reportIncident env type description location w) =
    Returned ((answered location ||
               answered (LocationService.getCurrentLocation (platform env))) &&
              answered (stored_user env) && dialog_ok env) /\
  (forall given,
     location = Some given ->
     fst (reportIncident env type description location w) =
       Returned (answered (stored_user env) && dialog_ok env)) /\
  getAlertHistory (snd (reportIncident env type description location w)) =
    getAlertHistory w /\
  getEmergencyContacts (snd (reportIncident env type description location w)) =
    getEmergencyContacts w.
Proof. apply reportIncident_cases. Qed.

Lemma reportIncident_outcome_witness :
  fst (reportIncident env_no_location "theft" "theft incident"
         (Some at_centre) initial) = Returned true.
Proof.
  apply (proj1 (proj2 (reportIncident_outcome env_no_location "theft"
                         "theft incident" (Some at_centre) initial))
           at_centre).
  reflexivity.
Defined.

Lemma checkGeofenceViolation_keeps (env : Env) (location : LocationData) (w : World) :
  alertHistory (snd (checkGeofenceViolation env location w)) = alertHistory w /\
  emergencyContacts (snd (checkGeofenceViolation env location w)) =
    emergencyContacts w.
Proof.
  unfold checkGeofenceViolation, checkGeofenceViolationIn, try_catch.
  rewrite check_areas_find.
  destruct (find (within location) restrictedAreas) as [area | ];
    [ | split; reflexivity].
  unfold triggerGeofenceAlert, bind, notificationAsync, Alert_alert.
  destruct (haptics_ok env), (dialog_ok env); cbn; split; reflexivity.
Qed.

Lemma check_fixes_from (fixes : list (Env * LocationData))
    (pre : list (Outcome bool)) (w : World) :
  fold_left (fun acc f =>
               let r := checkGeofenceViolation (fst f) (snd f) (snd acc) in
               (fst acc ++ [fst r], snd r)) fixes (pre, w) =
  (pre ++ fst (check_fixes fixes w), snd (check_fixes fixes w)).
Proof.
  unfold check_fixes. revert pre w.
  induction fixes as [ | g fixes IH]; intros pre w; cbn [fold_left fst snd].
  - rewrite app_nil_r. reflexivity.
  - rewrite IH. rewrite (IH ([] ++ _)). cbn [fst snd app].
    rewrite <- app_assoc. reflexivity.
Qed.

Lemma check_fixes_cons (f : Env * LocationData) (fixes : list (Env * LocationData))
    (w : World) :
  check_fixes (f :: fixes) w =
  (fst (checkGeofenceViolation (fst f) (snd f) w) ::
     fst (check_fixes fixes (snd (checkGeofenceViolation (fst f) (snd f) w))),
   snd (check_fixes fixes (snd (checkGeofenceViolation (fst f) (snd f) w)))).
Proof.
  change (check_fixes (f :: fixes) w)
    with (fold_left (fun acc f =>
               let r := checkGeofenceViolation (fst f) (snd f) (snd acc) in
               (fst acc ++ [fst r], snd r)) fixes
            ([fst (checkGeofenceViolation (fst f) (snd f) w)],
             snd (checkGeofenceViolation (fst f) (snd f) w))).
  rewrite check_fixes_from. reflexivity.
Qed.

(** X15.  Geofence checks leave no record: over any sequence of fixes the
    alert history and the contacts are what they were, no check rejects, and
    each check returns [true] exactly for a fix inside a zone whose alert
    succeeded. *)
Theorem geofence_checks_leave_no_record (fixes : list (Env * LocationData))
    (w : World) :
  getAlertHistory (snd (check_fixes fixes w)) = getAlertHistory w /\
  getEmergencyContacts (snd (check_fixes fixes w)) = getEmergencyContacts w /\
  fst (check_fixes fixes w) =
    map (fun f => Returned (inside_some_zone (snd f) && alert_succeeds (fst f)))
        fixes.
Proof.
  unfold getAlertHistory, getEmergencyContacts.
  revert w. induction fixes as [ | f fixes IH]; intros w.
  - repeat split.
  - rewrite check_fixes_cons. cbn [fst snd map].
    destruct (IH (snd (checkGeofenceViolation (fst f) (snd f) w)))
      as (Hh & Hc & Hr).
    destruct (checkGeofenceViolation_keeps (fst f) (snd f) w) as [Hh1 Hc1].
    rewrite Hh, Hc, Hr, Hh1, Hc1.
    rewrite (proj1 (checkGeofenceViolation_result (fst f) (snd f) w)).
    repeat split.
Qed.

Lemma apply_op_history (w : World) (op : Op) :
  alertHistory (apply_op w op) = alertHistory w \/
  (is_trigger op = true /\
   exists alert, fresh_sos alert /\
                 alertHistory (apply_op w op) = alert :: alertHistory w).
Proof.
  destruct op as [env message | env location | ok c | ok p | env t d location];
    cbn [apply_op is_trigger].
  - destruct (triggerPanicAlert_cases env message w) as (_ & Hh & _).
    unfold getAlertHistory in Hh. rewrite Hh.
    destruct (LocationService.getCurrentLocation (platform env)) as [loc | ];
      [ | left; reflexivity].
    destruct (haptics_ok env); [ | left; reflexivity].
    right. split; [reflexivity | ]. eexists. split; [ | reflexivity].
    split; reflexivity.
  - left. apply checkGeofenceViolation_keeps.
  - left. unfold addEmergencyContact, bind, get_contacts, set_contacts, setJsonItem.
    destruct ok; reflexivity.
  - left. unfold removeEmergencyContact, bind, get_contacts, set_contacts,
      setJsonItem.
    destruct ok; reflexivity.
  - left. apply (reportIncident_cases env t d location w).
Qed.

(** X16.  The alert history only grows, and only by panic alerts.  After any
    sequence of calls of the service's methods the old history is still
    there, unchanged, behind the alerts recorded since; each of those is an
    sos alert with status sent (nothing ever records a geofence alert, or
    acknowledges or resolves one), and there are no more of them than calls
    of [triggerPanicAlert]. *)
Theorem alert_history_only_grows (ops : list Op) (w : World) :
  exists newer,
    getAlertHistory (apply_ops w ops) = newer ++ getAlertHistory w /\
    Forall fresh_sos newer /\
    (length newer <= length (List.filter is_trigger ops))%nat.
Proof.
  unfold getAlertHistory. revert w.
  induction ops as [ | op ops IH]; intros w.
  - exists []. repeat split; [constructor | cbn; lia].
  - cbn [apply_ops fold_left]. fold (apply_ops (apply_op w op) ops).
    destruct (IH (apply_op w op)) as (newer & Hh & Hall & Hlen).
    destruct (apply_op_history w op) as [Hsame | (Htrig & alert & Hfresh & Hadd)].
    + exists newer. rewrite Hh, Hsame. repeat split; [exact Hall | ].
      cbn [List.filter]. destruct (is_trigger op); cbn [length]; lia.
    + exists (newer ++ [alert]). rewrite Hh, Hadd, <- app_assoc.
      repeat split.
      * apply Forall_app. split; [exact Hall | ]. constructor; [exact Hfresh | constructor].
      * cbn [List.filter]. rewrite Htrig. rewrite length_app. cbn [length]. lia.
Qed.

End ServiceFacts.

(** ** The panic button over whole runs, (tabs)/index.tsx *)

Section PanicRuns.
Import EmergencyService Safety.

Lemma run_invariant (P : State -> Prop) (s : State) (actions : list Action) :
  P s -> (forall s a, P s -> P (step s a)) -> P (run s actions).
Proof.
  intros Hs Hstep. revert s Hs.
  induction actions as [ | a actions IH]; intros s Hs; cbn; [exact Hs | ].
  apply IH, Hstep, Hs.
Qed.

Lemma timers_ok_delete (s : State) (id : nat) :
  timers_ok s ->
  forall j count, delete id (intervals s) !! j = Some count ->
                  (j < nextTimerId s)%nat /\ (1 <= count <= 3)%Z.
Proof.
  intros [Ht _] j count Hj. apply lookup_delete_Some in Hj as [_ Hj].
  apply (Ht j count Hj).
Qed.

Lemma timers_ok_step (s : State) (a : Action) :
  timers_ok s -> timers_ok (step s a).
Proof.
  intros Hok. pose proof Hok as [Ht Hc].
  destruct a as [ | | id | env]; cbn [step].
  - unfold onPress. destruct (emergencyActive s).
    + unfold cancelEmergency, clearTimer. split; cbn; [ | lia].
      destruct (countdownRef s) as [r | ]; [apply timers_ok_delete, Hok | exact Ht].
    + unfold startPanicSequence. split; cbn; [ | lia].
      intros j count Hj. apply lookup_insert_Some in Hj as [[<- <-] | [_ Hj] ].
      * lia.
      * destruct (Ht j count Hj). lia.
  - unfold onPressOut.
    destruct (panicPressed s && negb (emergencyActive s)); [ | exact Hok].
    unfold cancelPanicSequence, clearTimer. split; cbn; [ | lia].
    destruct (countdownRef s) as [r | ]; [apply timers_ok_delete, Hok | exact Ht].
  - unfold tick. destruct (intervals s !! id) as [count | ] eqn:E; [ | exact Hok].
    destruct (Ht id count E) as [Hid Hcount].
    destruct (Z.leb_spec (count - 1) 0) as [Hle | Hgt].
    + unfold triggerEmergency, clearTimer. split; cbn; [ | lia].
      intros j c Hj. rewrite delete_insert_eq in Hj.
      apply lookup_delete_Some in Hj as [_ Hj]. apply (Ht j c Hj).
    + split; cbn; [ | lia].
      intros j c Hj. apply lookup_insert_Some in Hj as [[<- <-] | [_ Hj] ].
      * split; [exact Hid | lia].
      * apply (Ht j c Hj).
  - unfold alertSettled. destruct (awaited s) as [ | message later]; [exact Hok | ].
    cbv zeta.
    destruct (fst (triggerPanicAlert env message (service s))) as [ [ | ] | ];
      split; cbn; assumption.
Qed.

(** X17.  In every state the screen can reach: the counter shown is between
    0 and 3, every scheduled countdown timer has between 1 and 3 ticks left,
    and its id is below the next id to be handed out, so a new timer never
    takes the id of a scheduled one. *)
Theorem countdown_within_bounds (w : World) (actions : list Action) :
  (0 <= countdown (run (mounted w) actions) <= 3)%Z /\
  (forall id count,
     intervals (run (mounted w) actions) !! id = Some count ->
     (1 <= count <= 3)%Z /\
     (id < nextTimerId (run (mounted w) actions))%nat).
Proof.
  assert (H : timers_ok (run (mounted w) actions)).
  { apply run_invariant; [ | apply timers_ok_step].
    split; cbn; [ | lia]. intros id count Hl.
    rewrite lookup_empty in Hl. discriminate. }
  destruct H as [Ht Hc]. split; [exact Hc | ].
  intros id count Hl. destruct (Ht id count Hl). split; assumption.
Qed.

Lemma referenced_cleared (s : State) :
  referenced s ->
  match countdownRef s with
  | Some id => clearTimer id (intervals s)
  | None => intervals s
  end = ∅.
Proof.
  intros Href. apply map_empty. intros j.
  destruct (countdownRef s) as [r | ] eqn:Er.
  - unfold clearTimer. destruct (decide (r = j)) as [-> | Hne].
    + apply lookup_delete_eq.
    + rewrite lookup_delete_ne by exact Hne.
      destruct (intervals s !! j) as [c | ] eqn:E; [ | reflexivity].
      destruct (Href j c E) as [Hr _]. congruence.
  - destruct (intervals s !! j) as [c | ] eqn:E; [ | reflexivity].
    destruct (Href j c E) as [Hr _]. congruence.
Qed.

Lemma referenced_none (s : State) :
  referenced s -> panicPressed s = false -> intervals s = ∅.
Proof.
  intros Href Hp. apply map_empty. intros j.
  destruct (intervals s !! j) as [c | ] eqn:E; [ | reflexivity].
  destruct (Href j c E) as [_ Hr]. congruence.
Qed.

Lemma referenced_empty (s : State) : intervals s = ∅ -> referenced s.
Proof. intros He id count Hl. rewrite He, lookup_empty in Hl. discriminate. Qed.

Lemma referenced_step (s : State) (a : Action) :
  referenced s ->
  match a with
  | Press => negb (panicPressed s) || emergencyActive s
  | _ => true
  end = true ->
  referenced (step s a).
Proof.
  intros Href Hd. destruct a as [ | | id | env]; cbn [step].
  - unfold onPress. destruct (emergencyActive s) eqn:Ea.
    + apply referenced_empty. cbn. apply referenced_cleared, Href.
    + rewrite orb_false_r in Hd. apply negb_true_iff in Hd.
      pose proof (referenced_none s Href Hd) as He.
      unfold startPanicSequence. intros j c Hj. cbn in Hj |- *.
      rewrite He in Hj. apply lookup_insert_Some in Hj as [[<- _] | [_ Hj] ].
      * split; reflexivity.
      * rewrite lookup_empty in Hj. discriminate.
  - unfold onPressOut.
    destruct (panicPressed s && negb (emergencyActive s)); [ | exact Href].
    apply referenced_empty. cbn. apply referenced_cleared, Href.
  - unfold tick. destruct (intervals s !! id) as [count | ] eqn:E; [ | exact Href].
    destruct (Href id count E) as [Hr Hp].
    destruct (Z.leb_spec (count - 1) 0) as [Hle | Hgt].
    + apply referenced_empty. unfold triggerEmergency, clearTimer. cbn.
      rewrite delete_insert_eq.
      pose proof (referenced_cleared s Href) as Hc. rewrite Hr in Hc. exact Hc.
    + intros j c Hj. cbn in Hj |- *.
      apply lookup_insert_Some in Hj as [[<- _] | [_ Hj] ].
      * split; assumption.
      * apply (Href j c Hj).
  - unfold alertSettled. destruct (awaited s) as [ | message later]; [exact Href | ].
    cbv zeta.
    destruct (fst (triggerPanicAlert env message (service s))) as [ [ | ] | ];
      intros j c Hj; apply (Href j c Hj).
Qed.

Lemma referenced_run (s : State) (actions : list Action) :
  referenced s -> disciplined s actions = true -> referenced (run s actions).
Proof.
  revert s. induction actions as [ | a actions IH]; intros s Href Hd;
    [exact Href | ].
  cbn [disciplined] in Hd. apply andb_prop in Hd as [Ha Hrest].
  cbn. apply IH; [ | exact Hrest]. apply referenced_step; assumption.
Qed.

(** X18.  Without a press while the button is held counting, no timer is ever
    orphaned: in every state of such a run at most one timer is scheduled,
    it is the one [countdownRef] names, and each exit path
    ([cancelPanicSequence], [cancelEmergency], the unmount cleanup) leaves no
    timer scheduled. *)
Theorem no_orphaned_timer (w : World) (actions : list Action) :
  disciplined (mounted w) actions = true ->
  (forall id count,
     intervals (run (mounted w) actions) !! id = Some count ->
     countdownRef (run (mounted w) actions) = Some id) /\
  (size (intervals (run (mounted w) actions)) <= 1)%nat /\
  intervals (cancelPanicSequence (run (mounted w) actions)) = ∅ /\
  intervals (cancelEmergency (run (mounted w) actions)) = ∅ /\
  intervals (unmount (run (mounted w) actions)) = ∅.
Proof.
  intros Hd.
  assert (Href : referenced (run (mounted w) actions)).
  { apply referenced_run; [ | exact Hd]. apply referenced_empty. reflexivity. }
  pose proof (referenced_cleared _ Href) as Hclear.
  split; [intros id count Hl; apply (Href id count Hl) | ].
  split; [ | repeat split; exact Hclear].
  destruct (countdownRef (run (mounted w) actions)) as [r | ] eqn:Er.
  - unfold clearTimer in Hclear.
    destruct (intervals (run (mounted w) actions) !! r) as [c | ] eqn:E.
    + rewrite <- (insert_delete_id _ r c E), Hclear.
      rewrite map_size_insert, lookup_empty, map_size_empty. lia.
    + rewrite delete_id in Hclear by exact E. rewrite Hclear, map_size_empty. lia.
  - rewrite Hclear, map_size_empty. lia.
Qed.

Lemma no_orphaned_timer_witness :
  intervals (unmount (run (mounted initial)
                          [Press; Tick 1; PressOut; Press; Tick 2])) = ∅.
Proof.
  apply (no_orphaned_timer initial [Press; Tick 1; PressOut; Press; Tick 2]).
  reflexivity.
Defined.

Lemma size_cleared (s : State) :
  (size (match countdownRef s with
         | Some id => clearTimer id (intervals s)
         | None => intervals s
         end) <= size (intervals s))%nat.
Proof.
  destruct (countdownRef s) as [r | ]; [ | lia].
  unfold clearTimer. rewrite map_size_delete.
  destruct (intervals s !! r); cbn; lia.
Qed.

Lemma triggerPanicAlert_history_length (env : Env) (message : option string)
    (w : World) :
  (length (alertHistory (snd (triggerPanicAlert env message w))) <=
   S (length (alertHistory w)))%nat.
Proof.
  destruct (triggerPanicAlert_cases env message w) as (_ & Hh & _).
  unfold getAlertHistory in Hh. rewrite Hh.
  destruct (LocationService.getCurrentLocation (platform env));
    [destruct (haptics_ok env) | ]; cbn [length]; lia.
Qed.

Lemma committed_step (s : State) (a : Action) :
  (committed (step s a) <= committed s + if is_press a then 1 else 0)%nat.
Proof.
  unfold committed. destruct a as [ | | id | env]; cbn [step is_press].
  - unfold onPress. destruct (emergencyActive s).
    + cbn. pose proof (size_cleared s). lia.
    + cbn. rewrite map_size_insert.
      destruct (intervals s !! nextTimerId s); cbn; lia.
  - unfold onPressOut.
    destruct (panicPressed s && negb (emergencyActive s)); [ | lia].
    cbn. pose proof (size_cleared s). lia.
  - unfold tick. destruct (intervals s !! id) as [count | ] eqn:E; [ | lia].
    destruct (Z.leb_spec (count - 1) 0) as [Hle | Hgt].
    + unfold triggerEmergency, clearTimer. cbn.
      rewrite delete_insert_eq, length_app, map_size_delete, E. cbn.
      assert (size (intervals s) <> 0)%nat.
      { intros Hz. apply map_size_empty_iff in Hz. rewrite Hz, lookup_empty in E.
        discriminate. }
      lia.
    + cbn. rewrite map_size_insert, E. cbn. lia.
  - unfold alertSettled. destruct (awaited s) as [ | message later] eqn:Ew.
    { rewrite Ew. cbn [length]. lia. }
    cbv zeta.
    pose proof (triggerPanicAlert_history_length env message (service s)) as Hl.
    destruct (fst (triggerPanicAlert env message (service s))) as [ [ | ] | ];
      cbn in *; lia.
Qed.

Lemma committed_run (s : State) (actions : list Action) :
  (committed (run s actions) <=
   committed s + length (List.filter is_press actions))%nat.
Proof.
  revert s. induction actions as [ | a actions IH]; intros s; cbn; [lia | ].
  specialize (IH (step s a)). fold (run (step s a) actions) in IH |- *.
  pose proof (committed_step s a). destruct (is_press a); cbn [length]; lia.
Qed.

(** X19.  No alert without a press: however presses, releases, timer ticks
    and settled calls are interleaved, the alerts recorded on top of the old
    history, the alert calls still awaited and the timers still scheduled
    together never outnumber the presses of the panic button. *)
Theorem alerts_bounded_by_presses (w : World) (actions : list Action) :
  (length (getAlertHistory (service (run (mounted w) actions))) +
   length (awaited (run (mounted w) actions)) +
   size (intervals (run (mounted w) actions)) <=
   length (getAlertHistory w) + length (List.filter is_press actions))%nat.
Proof.
  pose proof (committed_run (mounted w) actions) as H.
  unfold committed, getAlertHistory in *. cbn in H.
  rewrite map_size_empty in H. lia.
Qed.

(** X20.  Cancelling an active emergency does not withdraw the alert call
    already made: when that call settles with a fix after the cancel, the
    screen is Idle and the sos alert is nevertheless recorded, with status
    sent. *)
Theorem cancel_does_not_withdraw_alert (s : State) (env : Env) (loc : LocationData) :
  panicState s = Idle ->
  awaited s = [] ->
  haptics_ok env = true ->
  LocationService.getCurrentLocation (platform env) = Some loc ->
  panicState (run s [Press; Tick (nextTimerId s); Tick (nextTimerId s);
                     Tick (nextTimerId s); Press; AlertSettled env]) = Idle /\
  exists alert,
    fresh_sos alert /\
    getAlertHistory
      (service (run s [Press; Tick (nextTimerId s); Tick (nextTimerId s);
                       Tick (nextTimerId s); Press; AlertSettled env])) =
    alert :: getAlertHistory (service s).
Proof.
  intros Hidle Hwait Hh Hloc.
  change (run s [Press; Tick (nextTimerId s); Tick (nextTimerId s);
                 Tick (nextTimerId s); Press; AlertSettled env])
    with (alertSettled env
            (onPress (run s [Press; Tick (nextTimerId s);
                             Tick (nextTimerId s); Tick (nextTimerId s)]))).
  rewrite (run_expiry s Hidle).
  unfold onPress. cbn [emergencyActive expired].
  unfold alertSettled. cbn [awaited cancelEmergency expired service].
  rewrite Hwait. cbn [app]. cbv zeta.
  destruct (triggerPanicAlert_with_location env panic_message
              (log_event (Haptic ImpactHeavy) (service s)) loc Hh Hloc)
    as [Hr Hhist].
  rewrite Hr. unfold getAlertHistory. cbn [service]. rewrite Hhist.
  split; [reflexivity | ].
  eexists. split; [ | reflexivity]. split; reflexivity.
Qed.

Lemma cancel_does_not_withdraw_alert_witness :
  panicState (run (mounted initial)
                  [Press; Tick 1; Tick 1; Tick 1; Press;
                   AlertSettled env_all_ok]) = Idle /\
  exists alert,
    fresh_sos alert /\
    getAlertHistory
      (service (run (mounted initial)
                    [Press; Tick 1; Tick 1; Tick 1; Press;
                     AlertSettled env_all_ok])) =
    alert :: getAlertHistory (service (mounted initial)).
Proof.
  apply (cancel_does_not_withdraw_alert (mounted initial) env_all_ok
           (fix_at 25.5788 91.8933 1700000000000)); reflexivity.
Defined.

End PanicRuns.

(** ** The dashboard, (tabs)/index.tsx *)

Section DashboardFacts.
Import Dashboard.

Lemma getLocation_located (a : Answer) (s : State) :
  locationHistory (getLocation a s) =
    match located a with
    | Some p => p :: firstn 9 (locationHistory s)
    | None => locationHistory s
    end /\
  location (getLocation a s) =
    match located a with
    | Some p => Some p
    | None => location s
    end.
Proof.
  unfold getLocation, located.
  destruct (permission a) as [status | ]; [ | split; reflexivity].
  destruct (LocationService.permission_granted status); cbn [negb];
    destruct (position a); split; reflexivity.
Qed.

Lemma dashboard_run_invariant (P : State -> Prop) (s : State) (acts : list Action) :
  P s -> (forall s act, P s -> P (step s act)) -> P (run s acts).
Proof.
  intros Hs Hstep. revert s Hs.
  induction acts as [ | act acts IH]; intros s Hs; cbn; [exact Hs | ].
  apply IH, Hstep, Hs.
Qed.

Lemma recent_step (s : State) (act : Action) :
  (length (locationHistory s) <= 10)%nat /\
  location s = head (locationHistory s) ->
  (length (locationHistory (step s act)) <= 10)%nat /\
  location (step s act) = head (locationHistory (step s act)).
Proof.
  intros [Hlen Hhead].
  assert (Hget : forall a,
    (length (locationHistory (getLocation a s)) <= 10)%nat /\
    location (getLocation a s) = head (locationHistory (getLocation a s))).
  { intros a. destruct (getLocation_located a s) as [Hh Hl].
    rewrite Hh, Hl. destruct (located a) as [p | ].
    - split; [ | reflexivity]. cbn [length]. rewrite length_firstn. lia.
    - split; assumption. }
  destruct act as [a | a | ]; cbn [step].
  - apply Hget.
  - unfold intervalTick. destruct (isTracking s); [apply Hget | split; assumption].
  - split; assumption.
Qed.

(** X21.  On the dashboard the recent-locations list never holds more than
    10 places, and the place shown as current is always its first entry,
    whatever refreshes, interval ticks and tracking toggles have happened. *)
Theorem dashboard_history_bounded (acts : list Action) :
  (length (locationHistory (run initial acts)) <= 10)%nat /\
  location (run initial acts) = head (locationHistory (run initial acts)).
Proof.
  apply (dashboard_run_invariant
           (fun s => (length (locationHistory s) <= 10)%nat /\
                     location s = head (locationHistory s))).
  - split; [cbn; lia | reflexivity].
  - apply recent_step.
Qed.

Lemma firstn_cons_firstn {A} (x : A) (l : list A) :
  x :: firstn 9 (firstn 10 l) = firstn 10 (x :: l).
Proof.
  cbn [firstn]. f_equal. rewrite firstn_firstn. reflexivity.
Qed.

Lemma refreshes_history (answers : list Answer) (older : list Place) (s : State) :
  locationHistory s = firstn 10 older ->
  locationHistory (run s (map Refresh answers)) =
  firstn 10 (rev (omap located answers) ++ older).
Proof.
  revert older s. induction answers as [ | a answers IH]; intros older s Hs.
  - exact Hs.
  - cbn [map run fold_left step].
    fold (run (getLocation a s) (map Refresh answers)).
    destruct (getLocation_located a s) as [Hh _].
    destruct (located a) as [p | ] eqn:E.
    + rewrite (IH (p :: older)) by (rewrite Hh, Hs; apply firstn_cons_firstn).
      simpl omap. rewrite E. cbn [rev]. rewrite <- app_assoc. reflexivity.
    + simpl omap. rewrite E. apply IH. rewrite Hh. exact Hs.
Qed.

(** X22.  The recent-locations list is the up to ten most recent places
    obtained, newest first: after any sequence of refreshes of a new screen
    it holds the places of the successful ones in reverse order of arrival,
    cut after the tenth; a refresh without permission or position adds
    nothing. *)
Theorem dashboard_history_newest_first (answers : list Answer) :
  locationHistory (run initial (map Refresh answers)) =
  firstn 10 (rev (omap located answers)).
Proof.
  rewrite (refreshes_history answers [] initial) by reflexivity.
  rewrite app_nil_r. reflexivity.
Qed.

Lemma newScore_range (a : Answer) :
  (0 <= random a < 1)%R -> (75 <= newScore a <= 94)%Z.
Proof.
  intros [H0 H1]. unfold newScore.
  destruct (base_Int_part (random a * 20)) as [Hlo Hhi].
  assert (Hge : (0 <= Int_part (random a * 20))%Z).
  { apply Z.lt_succ_r. apply lt_IZR. rewrite succ_IZR. lra. }
  assert (Hle : (Int_part (random a * 20) < 20)%Z).
  { apply lt_IZR. lra. }
  lia.
Qed.

Lemma score_step (s : State) (act : Action) :
  random_in_range act ->
  (75 <= safetyScore s <= 94)%Z -> (75 <= safetyScore (step s act) <= 94)%Z.
Proof.
  intros Hr Hs.
  assert (Hget : forall a, (0 <= random a < 1)%R ->
                           (75 <= safetyScore (getLocation a s) <= 94)%Z).
  { intros a Ha. unfold getLocation.
    destruct (permission a) as [status | ]; [ | exact Hs].
    destruct (LocationService.permission_granted status); cbn [negb]; [ | exact Hs].
    destruct (position a); [ | exact Hs]. cbn. apply newScore_range, Ha. }
  destruct act as [a | a | ]; cbn [step].
  - apply Hget, Hr.
  - unfold intervalTick. destruct (isTracking s); [apply Hget, Hr | exact Hs].
  - exact Hs.
Qed.

(** X23.  The safety score the dashboard shows stays between 75 and 94 (the
    first render shows 85, and every update is
    [floor(random * 20) + 75] with [random] in [0, 1)); so the status shown
    is Safe or Caution, never High Risk, and the colour is never red. *)
Theorem dashboard_score_range (acts : list Action) :
  Forall random_in_range acts ->
  (75 <= safetyScore (run initial acts) <= 94)%Z /\
  getSafetyStatus (safetyScore (run initial acts)) <> "High Risk"%string /\
  getSafetyColor (safetyScore (run initial acts)) <> hex Red.
Proof.
  intros Hall.
  assert (Hs : (75 <= safetyScore (run initial acts) <= 94)%Z).
  { assert (Hgen : forall s, (75 <= safetyScore s <= 94)%Z ->
                             (75 <= safetyScore (run s acts) <= 94)%Z).
    { induction Hall as [ | act acts Hact Hrest IH]; intros s Hs; [exact Hs | ].
      cbn. apply IH. apply score_step; assumption. }
    apply Hgen. cbn. lia. }
  split; [exact Hs | ].
  unfold getSafetyStatus, getSafetyColor.
  destruct (Z.leb_spec 80 (safetyScore (run initial acts)));
    [split; discriminate | ].
  destruct (Z.leb_spec 60 (safetyScore (run initial acts)));
    [split; discriminate | lia].
Qed.

Lemma dashboard_score_range_witness :
  (75 <= safetyScore
           (run initial [Refresh (mkAnswer (Some LocationService.granted)
                                    (Some zone_centre) 0 0)]) <= 94)%Z.
Proof.
  apply (dashboard_score_range
           [Refresh (mkAnswer (Some LocationService.granted)
                       (Some zone_centre) 0 0)]).
  constructor; [ | constructor]. cbn. lra.
Defined.

End DashboardFacts.

(** ** KYC: the demo service and the verification screen *)

Section KYCFacts.
Import KYC.

Lemma filter_index_past {A} (l : list A) (index from : nat) :
  (index < from)%nat ->
  filter_index (fun j => negb (j =? index)%nat) from l = l.
Proof.
  revert from. induction l as [ | x l IH]; intros from Hlt; [reflexivity | ].
  cbn [filter_index]. destruct (Nat.eqb_spec from index) as [E | _]; [lia | ].
  cbn [negb]. f_equal. apply IH. lia.
Qed.

Lemma filter_index_remove {A} (l : list A) (from i : nat) :
  filter_index (fun j => negb (j =? from + i)%nat) from l =
  firstn i l ++ skipn (S i) l.
Proof.
  revert from i. induction l as [ | x l IH]; intros from i.
  - destruct i; reflexivity.
  - cbn [filter_index]. destruct i as [ | i].
    + rewrite Nat.add_0_r, Nat.eqb_refl. cbn [negb firstn skipn app].
      apply filter_index_past. lia.
    + destruct (Nat.eqb_spec from (from + S i)) as [E | _]; [lia | ].
      cbn [negb firstn skipn app]. f_equal.
      replace (from + S i)%nat with (S from + i)%nat by lia. apply IH.
Qed.

(** X24.  Removing a document by its index drops exactly that entry and
    keeps the others in order (an index past the end removes nothing);
    adding a document and removing the last index gives the list back. *)
Theorem removeDocument_effect (index : nat) (s : Screen) (doc : Document) :
  documents (removeDocument index s) =
    firstn index (documents s) ++ skipn (S index) (documents s) /\
  ((length (documents s) <= index)%nat ->
   documents (removeDocument index s) = documents s) /\
  ((index < length (documents s))%nat ->
   S (length (documents (removeDocument index s))) = length (documents s)) /\
  documents (removeDocument (length (documents s)) (addDocument doc s)) =
    documents s.
Proof.
  assert (H : forall i t, documents (removeDocument i t) =
                          firstn i (documents t) ++ skipn (S i) (documents t)).
  { intros i t. unfold removeDocument. cbn [documents set_documents].
    apply (filter_index_remove (documents t) 0 i). }
  split; [apply H | split; [ | split] ].
  - intros Hlen. rewrite H, firstn_all2 by exact Hlen.
    rewrite skipn_all2 by lia. apply app_nil_r.
  - intros Hlt. rewrite H, length_app, length_firstn, length_skipn. lia.
  - rewrite H. cbn [addDocument documents set_documents].
    rewrite firstn_app, Nat.sub_diag, firstn_all. cbn [firstn].
    rewrite skipn_all2 by (rewrite length_app; cbn; lia).
    rewrite !app_nil_r. reflexivity.
Qed.

Lemma removeDocument_effect_witness :
  S (length (documents
       (removeDocument 0 (addDocument (mkDocument "file:///a.jpg" "a.jpg" photo)
                            (first_render "Asha"))))) =
  length (documents (addDocument (mkDocument "file:///a.jpg" "a.jpg" photo)
                       (first_render "Asha"))).
Proof.
  apply (proj1 (proj2 (proj2
           (removeDocument_effect 0
              (addDocument (mkDocument "file:///a.jpg" "a.jpg" photo)
                 (first_render "Asha"))
              (mkDocument "file:///a.jpg" "a.jpg" photo))))).
  cbn. lia.
Defined.

(** X25.  The screen's required-fields test and the demo service agree: a
    form passes the test exactly when [submitKycDemo] accepts it, and a
    press on the submit button of step 1 leads to step 2 exactly then. *)
Theorem kyc_guard_agrees_with_service (now : Z) (s : Screen) :
  (required_missing (formData s) = false <->
   success (submitKycDemo now (submission_of (formData s))) = true) /\
  (currentStep s = 1%Z ->
   (currentStep (step s (PressSubmit now)) = 2%Z <->
    success (submitKycDemo now (submission_of (formData s))) = true)).
Proof.
  assert (H : required_missing (formData s) = false <->
              success (submitKycDemo now (submission_of (formData s))) = true).
  { unfold required_missing, submitKycDemo, submission_of. cbn.
    destruct (truthy (name (formData s))), (truthy (dob (formData s))),
      (truthy (aadhaarNumber (formData s))),
      (truthy (passportNumber (formData s))); cbn; split; congruence. }
  split; [exact H | ].
  intros Hstep. rewrite <- H. cbn [step]. rewrite Hstep. cbn.
  unfold handleSubmitKyc.
  destruct (required_missing (formData s)); cbn; rewrite ?Hstep;
    split; congruence.
Qed.

Lemma kyc_guard_agrees_with_service_witness :
  currentStep (step (first_render "Asha") (PressSubmit 0)) = 2%Z <->
  success (submitKycDemo 0 (submission_of (formData (first_render "Asha")))) =
    true.
Proof.
  apply (proj2 (kyc_guard_agrees_with_service 0 (first_render "Asha"))).
  reflexivity.
Defined.

Lemma otp_ok_step (s : Screen) (a : Action) : otp_ok s -> otp_ok (step s a).
Proof.
  intros Hok. pose proof Hok as (Htimer & Hsteps & Hone & Hreq).
  destruct a as [f | text | now | ok | | id | doc | index]; cbn [step].
  - destruct (currentStep s =? 1)%Z; exact Hok.
  - destruct (currentStep s =? 2)%Z; exact Hok.
  - destruct (Z.eqb_spec (currentStep s) 1) as [E | _]; cbn [andb]; [ | exact Hok].
    destruct (required_missing (formData s)) eqn:Em; cbn [negb]; [exact Hok | ].
    unfold handleSubmitKyc. rewrite Em.
    destruct (Hone E) as [Hnone _].
    unfold otp_ok. cbn. rewrite Hnone.
    split; [right; exists (nextInterval s); split; [apply union_empty_r_L | lia] | ].
    split; [auto | ]. split; [intros; discriminate | intros _; discriminate].
  - destruct (Z.eqb_spec (currentStep s) 2) as [E | _]; cbn [andb]; [ | exact Hok].
    destruct (truthy (otp (formData s))) eqn:Et; [ | exact Hok].
    unfold handleVerifyOtp. rewrite Et. cbn [negb orb].
    destruct (requestId s) as [r | ] eqn:Er; cbn [answered negb].
    + unfold otp_ok. cbn. rewrite ?Er.
      split; [exact Htimer | ]. split; [auto | ].
      split; [intros; discriminate | intros _; discriminate].
    + exfalso. apply Hreq; [lia | reflexivity].
  - destruct (Z.eqb_spec (currentStep s) 2) as [E | _]; cbn [andb]; [ | exact Hok].
    destruct (Z.ltb_spec 0 (otpTimer s)) as [Hpos | Hzero]; cbn [negb]; [exact Hok | ].
    unfold resendOtp. destruct (Z.ltb_spec 0 (otpTimer s)) as [Hpos | _]; [lia | ].
    destruct Htimer as [[Hnone _] | (id & _ & Hrange)]; [ | lia].
    unfold otp_ok. cbn. rewrite Hnone.
    split; [right; exists (nextInterval s); split; [apply union_empty_r_L | lia] | ].
    split; [exact Hsteps | ]. split; [intros E1; lia | exact Hreq].
  - unfold otpTick.
    destruct (bool_decide (id ∈ otpIntervals s)) eqn:Ein; [ | exact Hok].
    apply bool_decide_eq_true in Ein.
    destruct Htimer as [[Hnone _] | (id' & Hsingle & Hrange)].
    { rewrite Hnone in Ein. exfalso. exact (not_elem_of_empty id Ein). }
    assert (Hid : id = id').
    { rewrite Hsingle in Ein. apply elem_of_singleton in Ein. exact Ein. }
    subst id'.
    destruct (Z.leb_spec (otpTimer s) 1) as [Hle | Hgt].
    + unfold otp_ok. cbn. rewrite Hsingle.
      split; [left; split; [apply difference_diag_L | reflexivity] | ].
      split; [exact Hsteps | ]. split; [ | exact Hreq].
      intros E1. destruct (Hone E1) as [Hn _]. rewrite Hn in Hsingle.
      apply (f_equal size) in Hsingle.
      rewrite size_empty, size_singleton in Hsingle. discriminate.
    + unfold otp_ok. cbn.
      split; [right; exists id; split; [exact Hsingle | lia] | ].
      split; [exact Hsteps | ]. split; [exact Hone | exact Hreq].
  - destruct (currentStep s =? 1)%Z; exact Hok.
  - destruct (currentStep s =? 1)%Z; exact Hok.
Qed.

Lemma kyc_run_invariant (P : Screen -> Prop) (s : Screen) (actions : list Action) :
  P s -> (forall s a, P s -> P (step s a)) -> P (run s actions).
Proof.
  intros Hs Hstep. revert s Hs.
  induction actions as [ | a actions IH]; intros s Hs; cbn; [exact Hs | ].
  apply IH, Hstep, Hs.
Qed.

(** X26.  On the verification screen, whatever the user and the timers do:
    the OTP countdown stays between 0 and 60; at most one countdown interval
    is scheduled, and one is scheduled exactly while the countdown is above
    0, so the resend button is enabled exactly when no interval is left; the
    step is 1, 2 or 3, and beyond step 1 a request id is always present. *)
Theorem otp_screen_invariant (userName : string) (actions : list Action) :
  (0 <= otpTimer (run (first_render userName) actions) <= 60)%Z /\
  (size (otpIntervals (run (first_render userName) actions)) <= 1)%nat /\
  (otpIntervals (run (first_render userName) actions) = ∅ <->
   otpTimer (run (first_render userName) actions) = 0%Z) /\
  (currentStep (run (first_render userName) actions) = 1%Z \/
   currentStep (run (first_render userName) actions) = 2%Z \/
   currentStep (run (first_render userName) actions) = 3%Z) /\
  (currentStep (run (first_render userName) actions) <> 1%Z ->
   requestId (run (first_render userName) actions) <> None).
Proof.
  assert (H : otp_ok (run (first_render userName) actions)).
  { apply kyc_run_invariant; [ | apply otp_ok_step].
    unfold otp_ok. cbn. split; [left; split; reflexivity | ].
    split; [auto | ]. split; [auto | ]. intros Hne. contradiction. }
  destruct H as (Htimer & Hsteps & _ & Hreq).
  destruct Htimer as [[Hnone Hzero] | (id & Hsingle & Hrange)].
  - rewrite Hnone, Hzero, size_empty. repeat split; auto; lia.
  - rewrite Hsingle, size_singleton.
    split; [lia | ]. split; [lia | ]. split; [ | split; [exact Hsteps | exact Hreq] ].
    split.
    + intros He. apply (f_equal size) in He.
      rewrite size_empty, size_singleton in He. discriminate.
    + intros Hz. lia.
Qed.

Lemma otp_ticks_idle (s : Screen) (id : nat) (k : nat) :
  id ∉ otpIntervals s -> run s (repeat (OtpTick id) k) = s.
Proof.
  intros Hnot. induction k as [ | k IH]; [reflexivity | ].
  cbn [repeat run fold_left step]. unfold otpTick.
  rewrite bool_decide_eq_false_2 by exact Hnot. exact IH.
Qed.

Lemma otp_ticks (s : Screen) (id : nat) (k : nat) :
  otpIntervals s = {[ id ]} -> (1 <= otpTimer s)%Z ->
  otpTimer (run s (repeat (OtpTick id) k)) =
    Z.max 0 (otpTimer s - Z.of_nat k) /\
  otpIntervals (run s (repeat (OtpTick id) k)) =
    (if (Z.of_nat k <? otpTimer s)%Z then {[ id ]} else ∅) /\
  currentStep (run s (repeat (OtpTick id) k)) = currentStep s.
Proof.
  revert s. induction k as [ | k IH]; intros s Hsingle Hpos.
  - cbn [repeat run fold_left]. rewrite Hsingle.
    destruct (Z.ltb_spec (Z.of_nat 0) (otpTimer s)); [ | lia].
    repeat split. lia.
  - cbn [repeat run fold_left step]. fold (run (otpTick id s) (repeat (OtpTick id) k)).
    unfold otpTick. rewrite bool_decide_eq_true_2 by (rewrite Hsingle; apply elem_of_singleton_2; reflexivity).
    destruct (Z.leb_spec (otpTimer s) 1) as [Hle | Hgt].
    + rewrite otp_ticks_idle.
      * cbn. rewrite Hsingle.
        destruct (Z.ltb_spec (Z.of_nat (S k)) (otpTimer s)); [lia | ].
        repeat split; [lia | apply difference_diag_L].
      * cbn. rewrite Hsingle, difference_diag_L. apply not_elem_of_empty.
    + match goal with |- context [run ?t _] =>
        destruct (IH t) as (Ht & Hi & Hs); [exact Hsingle | cbn; lia | ] end.
      rewrite Ht, Hi, Hs. cbn.
      destruct (Z.ltb_spec (Z.of_nat k) (otpTimer s - 1));
        destruct (Z.ltb_spec (Z.of_nat (S k)) (otpTimer s)); try lia;
        repeat split; lia.
Qed.

(** X27.  The OTP countdown after a submission that passes the test: after
    [k] seconds it shows [60 - k], and 0 from the 60th second on; its
    interval is cleared exactly at the 60th tick; until then a press on the
    resend button does nothing, afterwards it restarts the countdown at
    60. *)
Theorem otp_countdown (s : Screen) (now : Z) (k : nat) :
  currentStep s = 1%Z -> otpIntervals s = ∅ ->
  required_missing (formData s) = false ->
  otpTimer (run s (PressSubmit now :: repeat (OtpTick (nextInterval s)) k)) =
    Z.max 0 (60 - Z.of_nat k) /\
  (otpIntervals (run s (PressSubmit now :: repeat (OtpTick (nextInterval s)) k))
     = ∅ <-> (60 <= k)%nat) /\
  ((k < 60)%nat ->
   step (run s (PressSubmit now :: repeat (OtpTick (nextInterval s)) k))
        PressResend =
   run s (PressSubmit now :: repeat (OtpTick (nextInterval s)) k)) /\
  ((60 <= k)%nat ->
   otpTimer (step (run s (PressSubmit now :: repeat (OtpTick (nextInterval s)) k))
                  PressResend) = 60%Z).
Proof.
  intros Hstep Hnone Hform.
  change (run s (PressSubmit now :: repeat (OtpTick (nextInterval s)) k))
    with (run (step s (PressSubmit now)) (repeat (OtpTick (nextInterval s)) k)).
  assert (Hsub : step s (PressSubmit now) = handleSubmitKyc now s).
  { cbn [step]. rewrite Hstep, Hform. reflexivity. }
  rewrite Hsub.
  destruct (otp_ticks (handleSubmitKyc now s) (nextInterval s) k) as (Ht & Hi & Hs).
  { unfold handleSubmitKyc. rewrite Hform. cbn. rewrite Hnone.
    apply union_empty_r_L. }
  { unfold handleSubmitKyc. rewrite Hform. cbn. lia. }
  assert (H60 : otpTimer (handleSubmitKyc now s) = 60%Z).
  { unfold handleSubmitKyc. rewrite Hform. reflexivity. }
  assert (H2 : currentStep (handleSubmitKyc now s) = 2%Z).
  { unfold handleSubmitKyc. rewrite Hform. reflexivity. }
  rewrite H60 in Ht, Hi. rewrite H2 in Hs.
  split; [exact Ht | ]. split; [ | split].
  - rewrite Hi. destruct (Z.ltb_spec (Z.of_nat k) 60) as [Hlt | Hge];
      split; intros Hx; try lia.
    + apply (f_equal size) in Hx.
      rewrite size_singleton, size_empty in Hx. discriminate.
    + reflexivity.
  - intros Hk. cbn [step]. rewrite Hs, Ht. cbn [Z.eqb andb].
    destruct (Z.ltb_spec 0 (Z.max 0 (60 - Z.of_nat k))); [reflexivity | lia].
  - intros Hk. cbn [step]. rewrite Hs, Ht. cbn [Z.eqb andb].
    destruct (Z.ltb_spec 0 (Z.max 0 (60 - Z.of_nat k))); [lia | ].
    cbn [negb]. unfold resendOtp. rewrite Ht.
    destruct (Z.ltb_spec 0 (Z.max 0 (60 - Z.of_nat k))); [lia | reflexivity].
Qed.

Lemma otp_countdown_witness :
  otpTimer (run (set_form complete_form (first_render "Asha"))
                (PressSubmit 0 :: repeat (OtpTick 1) 59)) = 1%Z.
Proof.
  apply (proj1 (otp_countdown (set_form complete_form (first_render "Asha"))
                  0 59 eq_refl eq_refl eq_refl)).
Defined.

(** X28.  The screen never checks the OTP itself: in step 2, with a request
    pending, any non-empty text entered as OTP leads to step 3 on a press of
    the verify button, whether or not the user refresh that follows
    succeeds; only the demo service, which the screen does not call, asks
    for six characters. *)
Theorem verify_ignores_otp (s : Screen) (text : string) (refresh_ok : bool) :
  currentStep s = 2%Z -> requestId s <> None -> text <> ""%string ->
  currentStep (run s [EditOtp text; PressVerify refresh_ok]) = 3%Z /\
  (forall r, success (verifyOtpDemo r text) = true <->
             String.length text = 6%nat).
Proof.
  intros Hstep Hreq Htext. split.
  - cbn [run fold_left step]. rewrite Hstep. cbn [Z.eqb].
    assert (Ht : truthy text = true) by (destruct text; [contradiction | reflexivity]).
    cbn. rewrite Hstep. cbn [Z.eqb andb]. rewrite Ht.
    unfold handleVerifyOtp. cbn. rewrite Ht.
    destruct (requestId s); [reflexivity | contradiction].
  - intros r. unfold verifyOtpDemo.
    destruct (Nat.eqb_spec (String.length text) 6); cbn; split;
      intros; congruence.
Qed.

Lemma verify_ignores_otp_witness :
  currentStep
    (run (run (set_form complete_form (first_render "Asha")) [PressSubmit 0])
         [EditOtp "1"; PressVerify false]) = 3%Z.
Proof.
  apply (proj1 (verify_ignores_otp
                  (run (set_form complete_form (first_render "Asha"))
                       [PressSubmit 0])
                  "1" false eq_refl ltac:(discriminate) ltac:(discriminate))).
Defined.

End KYCFacts.
